(** * advanced-todo-list: the Storage module and the TaskManager of task.js

    A shallow embedding of [src/task.js] (the [Storage] object and the
    [TaskManager] class; of the DOM layer [UI] only the two theme
    functions are modelled) and the properties proved about it.

    Conventions of the embedding.
    - A JavaScript string is a [string]; its characters stand for the
      UTF-16 code units 0..255 (the Latin-1 range).  [trim] and
      [toLowerCase] are the ECMAScript functions restricted to that range.
    - A JavaScript number that the program handles is an integer
      timestamp, a [Z]; the result of a subtraction is a [number], which
      also has [NaN].
    - Arrays are mutable and shared by reference: they live in a store
      ([arrays]) and are named by their location.  [push] and [sort]
      update an array in place, [filter] and the spread [[...a]] allocate.
      Task objects are kept by value inside the arrays: the program never
      puts one task object into two slots of the arrays it keeps.
    - [localStorage] maps a key to the stored text.  A text written by
      [JSON.stringify] is represented by the JSON tree it denotes, so that
      [JSON.parse] of a stored text is that tree.
    - [Date.now()] reads the next value of a clock, an arbitrary sequence
      of integers. *)

From Stdlib Require Import ZArith Ascii String List Permutation Sorted Lia.
From stdpp Require Import base option list strings gmap.

Set Warnings "-register-all".

Local Open Scope string_scope.
Local Open Scope list_scope.
Local Open Scope Z_scope.

(** ** JavaScript strings *)

Module JsString.

(** [if (s)]: a string is truthy when it is not empty. *)
Definition truthy (s : string) : bool :=
  match s with EmptyString => false | String _ _ => true end.

(** WhiteSpace and LineTerminator code units below 256:
    TAB, LF, VT, FF, CR, SP and NBSP. *)
Definition isWhiteSpace (c : ascii) : bool :=
  let n := nat_of_ascii c in
  ((9 <=? n)%nat && (n <=? 13)%nat) || (n =? 32)%nat || (n =? 160)%nat.

Fixpoint trimStart (s : string) : string :=
  match s with
  | EmptyString => EmptyString
  | String c s' => if isWhiteSpace c then trimStart s' else s
  end.

Fixpoint trimEnd (s : string) : string :=
  match s with
  | EmptyString => EmptyString
  | String c s' =>
      match trimEnd s' with
      | EmptyString => if isWhiteSpace c then EmptyString else String c EmptyString
      | r => String c r
      end
  end.

(** [s.trim()] *)
Definition trim (s : string) : string := trimEnd (trimStart s).

(** Lower case of one code unit below 256: A-Z and the Latin-1 capitals
    (U+00C0-U+00DE without the multiplication sign U+00D7) move up by 32. *)
Definition lowerChar (c : ascii) : ascii :=
  let n := nat_of_ascii c in
  if ((65 <=? n)%nat && (n <=? 90)%nat)
     || ((192 <=? n)%nat && (n <=? 222)%nat && negb (n =? 215)%nat)
  then ascii_of_nat (n + 32) else c.

(** [s.toLowerCase()] *)
Fixpoint toLowerCase (s : string) : string :=
  match s with
  | EmptyString => EmptyString
  | String c s' => String (lowerChar c) (toLowerCase s')
  end.

(** [s.startsWith(p)] *)
Fixpoint startsWith (s p : string) : bool :=
  match p, s with
  | EmptyString, _ => true
  | String _ _, EmptyString => false
  | String a p', String b s' => Ascii.eqb a b && startsWith s' p'
  end.

(** [s.includes(p)]: [p] occurs in [s] at some position. *)
Fixpoint includes (s p : string) : bool :=
  startsWith s p ||
  match s with
  | EmptyString => false
  | String _ s' => includes s' p
  end.

End JsString.

(** ** JSON trees and JavaScript values read back from them *)

Inductive json : Type :=
| JNull
| JBool (b : bool)
| JNum (z : Z)
| JStr (s : string)
| JArr (l : list json)
| JObj (kv : list (string * json)).

Module Json.

(** Truthiness of a parsed value: [null], [false], [0] and [''] are falsy. *)
Definition truthy (j : json) : bool :=
  match j with
  | JNull => false
  | JBool b => b
  | JNum z => negb (z =? 0)
  | JStr s => JsString.truthy s
  | JArr _ | JObj _ => true
  end.

(** [j?.k]: the property [k] of a parsed value, [None] for [undefined].
    A key written twice in a text keeps its last value. *)
Definition prop (k : string) (j : json) : option json :=
  match j with
  | JObj kv => snd <$> List.find (fun p => String.eqb (fst p) k) (rev kv)
  | _ => None
  end.

(** [v || d] on an optional property: a missing or falsy value gives [d]. *)
Definition or_else {A} (v : option json) (d : A) (k : json -> A) : A :=
  match v with
  | Some j => if truthy j then k j else d
  | None => d
  end.

Definition as_num (j : json) : option Z :=
  match j with JNum z => Some z | _ => None end.
Definition as_str (j : json) : option string :=
  match j with JStr s => Some s | _ => None end.
Definition as_bool (j : json) : option bool :=
  match j with JBool b => Some b | _ => None end.
Definition as_arr (j : json) : option (list json) :=
  match j with JArr l => Some l | _ => None end.
(** a value that is [null] or a string *)
Definition as_str_or_null (j : json) : option (option string) :=
  match j with JNull => Some None | JStr s => Some (Some s) | _ => None end.

End Json.

(** ** Data model *)

(** A task object: [{id, title, completed, priority, dueDate, dateCreated}]. *)
Record Task : Type := mkTask {
  id : Z;
  title : string;
  completed : bool;
  priority : string;
  dueDate : string;
  dateCreated : Z
}.

(** The [filters] object: [{status, priority}], [priority] is [null] or a string. *)
Module Filters.
Record t : Type := mk {
  status : string;
  priority : option string
}.
End Filters.

(** The object handed to [Storage.saveData]: [{tasks, filters, sortBy}]. *)
Module Snapshot.
Record t : Type := mk {
  tasks : list Task;
  filters : Filters.t;
  sortBy : string
}.
End Snapshot.

(** The result object of [addTask]: [{success, error}]. *)
Module Result.
Record t : Type := mk {
  success : bool;
  error : option string
}.
End Result.

(** Location of an array in the store. *)
Definition loc := nat.

(** The fields of a [TaskManager] instance; [tasks] refers to an array. *)
Record TaskManager : Type := mkTaskManager {
  tasks : loc;
  filters : Filters.t;
  sortBy : string;
  searchQuery : string
}.

(** The environment of the program: the array store, [localStorage] with
    the number of [setItem] calls made so far, and the clock with the
    number of readings taken so far. *)
Record World : Type := mkWorld {
  arrays : list (list Task);
  localStorage : gmap string json;
  setItemCalls : nat;
  clock : nat -> Z;
  ticks : nat
}.

(** A running program: the instance [this] and its environment. *)
Record State : Type := mkState {
  this : TaskManager;
  world : World
}.

(** ** JSON.stringify of the program's objects, and reading them back *)

Module JSON.

Definition of_Task (t : Task) : json :=
  JObj [("id", JNum (id t)); ("title", JStr (title t));
        ("completed", JBool (completed t)); ("priority", JStr (priority t));
        ("dueDate", JStr (dueDate t)); ("dateCreated", JNum (dateCreated t))].

Definition of_Filters (f : Filters.t) : json :=
  JObj [("status", JStr (Filters.status f));
        ("priority", match Filters.priority f with
                     | Some p => JStr p
                     | None => JNull
                     end)].

(** [JSON.stringify(data)] for [data = {tasks, filters, sortBy}] *)
Definition stringify (d : Snapshot.t) : json :=
  JObj [("tasks", JArr (List.map of_Task (Snapshot.tasks d)));
        ("filters", of_Filters (Snapshot.filters d));
        ("sortBy", JStr (Snapshot.sortBy d))].

(** A parsed value used as a task object: every field the program
    reads is there with the type of section 6 of the specification;
    [None] when the value has another shape. *)
Definition to_Task (j : json) : option Task :=
  i ← Json.prop "id" j ≫= Json.as_num;
  t ← Json.prop "title" j ≫= Json.as_str;
  c ← Json.prop "completed" j ≫= Json.as_bool;
  p ← Json.prop "priority" j ≫= Json.as_str;
  d ← Json.prop "dueDate" j ≫= Json.as_str;
  dc ← Json.prop "dateCreated" j ≫= Json.as_num;
  Some (mkTask i t c p d dc).

Definition to_tasks (j : json) : option (list Task) :=
  Json.as_arr j ≫= mapM to_Task.

Definition to_Filters (j : json) : option Filters.t :=
  s ← Json.prop "status" j ≫= Json.as_str;
  p ← Json.prop "priority" j ≫= Json.as_str_or_null;
  Some (Filters.mk s p).

End JSON.

(** ** Effects: a state monad *)

Definition ST (S A : Type) : Type := S -> A * S.

Definition ret {S A} (a : A) : ST S A := fun s => (a, s).

Definition bind {S A B} (c : ST S A) (k : A -> ST S B) : ST S B :=
  fun s => let (a, s') := c s in k a s'.

Notation "x <- c ;; k" := (bind c (fun x => k))
  (at level 100, c at next level, right associativity).
Notation "c ;; k" := (bind c (fun _ => k))
  (at level 100, right associativity).

(** [Date.now()]: the next reading of the clock. *)
Definition Date_now : ST World Z :=
  fun w => (clock w (ticks w),
            mkWorld (arrays w) (localStorage w) (setItemCalls w) (clock w) (S (ticks w))).

Module LocalStorage.

Definition setItem (k : string) (v : json) : ST World unit :=
  fun w => (tt, mkWorld (arrays w) (<[k := v]> (localStorage w))
                        (S (setItemCalls w)) (clock w) (ticks w)).

Definition getItem (k : string) : ST World (option json) :=
  fun w => (localStorage w !! k, w).

End LocalStorage.

(** ** Numbers and the comparison of Array.prototype.sort *)

Inductive number : Type :=
| Num (z : Z)
| NaN.

(** [a - b] *)
Definition sub (a b : number) : number :=
  match a, b with
  | Num x, Num y => Num (x - y)
  | _, _ => NaN
  end.

(** ToNumber of a looked-up property: [undefined] converts to [NaN]. *)
Definition toNumber (v : option Z) : number :=
  match v with Some z => Num z | None => NaN end.

Module JsArray.

(** Contents of the array at [l]. *)
Definition contents (w : World) (l : loc) : list Task :=
  default [] (arrays w !! l).

Definition read (l : loc) : ST World (list Task) :=
  fun w => (contents w l, w).

Definition write (l : loc) (a : list Task) : ST World unit :=
  fun w => (tt, mkWorld (<[l := a]> (arrays w)) (localStorage w)
                        (setItemCalls w) (clock w) (ticks w)).

(** A new array object holding [a]. *)
Definition alloc (a : list Task) : ST World loc :=
  fun w => (length (arrays w),
            mkWorld (arrays w ++ [a]) (localStorage w)
                    (setItemCalls w) (clock w) (ticks w)).

(** [[...l]] *)
Definition spread (l : loc) : ST World loc :=
  a <- read l ;; alloc a.

(** [l.filter(p)]: a new array. *)
Definition filter (p : Task -> bool) (l : loc) : ST World loc :=
  a <- read l ;; alloc (List.filter p a).

(** [l.push(x)]: in place. *)
Definition push (l : loc) (x : Task) : ST World unit :=
  a <- read l ;; write l (a ++ [x]).

(** [l.find(p)]: the first element that satisfies [p], as its index in
    [l] (the reference to that object), or [None] for [undefined]. *)
Definition find (p : Task -> bool) (l : loc) : ST World (option nat) :=
  a <- read l ;; ret (fst <$> list_find (fun t => Is_true (p t)) a).

(** An assignment to a field of the object at index [k] of [l]. *)
Definition update (l : loc) (k : nat) (f : Task -> Task) : ST World unit :=
  a <- read l ;; write l (alter f k a).

(** SortCompare: the value of the comparison function, [NaN] read as 0. *)
Definition sortCompare (comparefn : Task -> Task -> number) (x y : Task) : Z :=
  match comparefn x y with
  | Num v => v
  | NaN => 0
  end.

(** The sort itself, as a stable insertion sort: [x] goes behind the
    elements it compares greater than.  For a consistent comparison
    function ECMAScript fixes the result, sorted and stable, and the
    algorithm does not matter ([sorted_determined] below); for an
    inconsistent one the order is implementation-defined and this is
    one such order. *)
Fixpoint insert (comparefn : Task -> Task -> number) (x : Task) (a : list Task)
  : list Task :=
  match a with
  | [] => [x]
  | y :: a' =>
      if 0 <? sortCompare comparefn x y
      then y :: insert comparefn x a'
      else x :: a
  end.

Fixpoint sorted (comparefn : Task -> Task -> number) (a : list Task) : list Task :=
  match a with
  | [] => []
  | x :: a' => insert comparefn x (sorted comparefn a')
  end.

(** [l.sort(comparefn)]: in place. *)
Definition sort (comparefn : Task -> Task -> number) (l : loc) : ST World unit :=
  a <- read l ;; write l (sorted comparefn a).

End JsArray.

(** ** The Storage module *)

Module Storage.

Definition STORAGE_KEY : string := "todoAppData".

Definition saveData (data : Snapshot.t) : ST World unit :=
  LocalStorage.setItem STORAGE_KEY (JSON.stringify data).

(** [data ? JSON.parse(data) : null]; a stored text is never empty. *)
Definition loadData : ST World json :=
  data <- LocalStorage.getItem STORAGE_KEY ;;
  ret (match data with Some text => text | None => JNull end).

Definition initializeSampleData : ST World unit :=
  data <- loadData ;;
  if negb (Json.truthy data) then
    id1 <- Date_now ;;
    created1 <- Date_now ;;
    id2 <- Date_now ;;
    created2 <- Date_now ;;
    let sampleTasks :=
      [ mkTask (id1 + 1) "Welcome to your task list!" false "high" "" created1;
        mkTask (id2 + 2) "Double-click a task to edit" false "medium" ""
               (created2 + 1) ] in
    saveData (Snapshot.mk sampleTasks (Filters.mk "all" None) "custom")
  else ret tt.

End Storage.

(** ** The TaskManager class *)

Definition liftW {A} (c : ST World A) : ST State A :=
  fun s => let (a, w) := c (world s) in (a, mkState (this s) w).

Definition getThis : ST State TaskManager := fun s => (this s, s).

Definition setThis (o : TaskManager) : ST State unit :=
  fun s => (tt, mkState o (world s)).

(** [new TaskManager()]: the fields of the new instance, read from the
    stored snapshot; [None] when the stored value has not the shape of a
    snapshot (the program trusts it as-is). *)
Definition newTaskManager : ST World (option TaskManager) :=
  data <- Storage.loadData ;;
  match Json.or_else (Json.prop "tasks" data) (Some []) JSON.to_tasks,
        Json.or_else (Json.prop "filters" data) (Some (Filters.mk "all" None))
                     JSON.to_Filters,
        Json.or_else (Json.prop "sortBy" data) (Some "custom") Json.as_str
  with
  | Some ts, Some f, Some sb =>
      l <- JsArray.alloc ts ;;
      ret (Some (mkTaskManager l f sb ""))
  | _, _, _ => ret None
  end.

Definition save : ST State unit :=
  o <- getThis ;;
  a <- liftW (JsArray.read (tasks o)) ;;
  liftW (Storage.saveData (Snapshot.mk a (filters o) (sortBy o))).

Definition addTask (title dueDate priority : string) : ST State Result.t :=
  if negb (JsString.truthy (JsString.trim title)) then
    ret (Result.mk false (Some "Task title cannot be empty"))
  else
    o <- getThis ;;
    now_id <- liftW Date_now ;;
    now_created <- liftW Date_now ;;
    liftW (JsArray.push (tasks o)
             (mkTask now_id (JsString.trim title) false priority dueDate now_created)) ;;
    save ;;
    ret (Result.mk true None).

Definition removeTask (i : Z) : ST State unit :=
  o <- getThis ;;
  l <- liftW (JsArray.filter (fun t => negb (id t =? i)) (tasks o)) ;;
  setThis (mkTaskManager l (filters o) (sortBy o) (searchQuery o)) ;;
  save.

Definition toggle (t : Task) : Task :=
  mkTask (id t) (title t) (negb (completed t)) (priority t) (dueDate t) (dateCreated t).

Definition toggleTask (i : Z) : ST State unit :=
  o <- getThis ;;
  task <- liftW (JsArray.find (fun t => id t =? i) (tasks o)) ;;
  match task with
  | Some k => liftW (JsArray.update (tasks o) k toggle)
  | None => ret tt
  end ;;
  save.

Definition setSearchQuery (query : string) : ST State unit :=
  o <- getThis ;;
  setThis (mkTaskManager (tasks o) (filters o) (sortBy o) query).

Definition setSortBy (sortBy' : string) : ST State unit :=
  o <- getThis ;;
  setThis (mkTaskManager (tasks o) (filters o) sortBy' (searchQuery o)) ;;
  save.

(** [p === value] for the priority filter [p], [null] or a string. *)
Definition strict_eq (p : option string) (value : string) : bool :=
  match p with
  | Some s => String.eqb s value
  | None => false
  end.

Definition setFilter (type value : string) : ST State unit :=
  o <- getThis ;;
  (if String.eqb type "status" then
     setThis (mkTaskManager (tasks o)
                (Filters.mk value (Filters.priority (filters o)))
                (sortBy o) (searchQuery o))
   else ret tt) ;;
  o <- getThis ;;
  (if String.eqb type "priority" then
     setThis (mkTaskManager (tasks o)
                (Filters.mk (Filters.status (filters o))
                   (if strict_eq (Filters.priority (filters o)) value
                    then None else Some value))
                (sortBy o) (searchQuery o))
   else ret tt) ;;
  save.

(** [const order = { high: 0, medium: 1, low: 2 }] and [order[p]]. *)
Definition order (p : string) : option Z :=
  if String.eqb p "high" then Some 0
  else if String.eqb p "medium" then Some 1
  else if String.eqb p "low" then Some 2
  else None.

(** [if (this.filters.priority)]: the filter is neither [null] nor ['']. *)
Definition priority_set (p : option string) : option string :=
  match p with
  | Some s => if JsString.truthy s then Some s else None
  | None => None
  end.

Definition getFilteredTasks : ST State loc :=
  o <- getThis ;;
  list <- liftW (JsArray.spread (tasks o)) ;;
  list <- (if JsString.truthy (searchQuery o) then
             liftW (JsArray.filter
                      (fun t => JsString.includes
                                  (JsString.toLowerCase (title t))
                                  (JsString.toLowerCase (searchQuery o)))
                      list)
           else ret list) ;;
  list <- (if String.eqb (Filters.status (filters o)) "active" then
             liftW (JsArray.filter (fun t => negb (completed t)) list)
           else ret list) ;;
  list <- (if String.eqb (Filters.status (filters o)) "completed" then
             liftW (JsArray.filter (fun t => completed t) list)
           else ret list) ;;
  list <- (match priority_set (Filters.priority (filters o)) with
           | Some p =>
               liftW (JsArray.filter (fun t => String.eqb (priority t) p) list)
           | None => ret list
           end) ;;
  (if String.eqb (sortBy o) "dateCreated" then
     liftW (JsArray.sort (fun a b => Num (dateCreated b - dateCreated a)) list)
   else ret tt) ;;
  (if String.eqb (sortBy o) "priority" then
     liftW (JsArray.sort
              (fun a b => sub (toNumber (order (priority a)))
                              (toNumber (order (priority b))))
              list)
   else ret tt) ;;
  ret list.

(** * The vocabulary of the statements *)

(** Running a program: its result and its final state. *)
Definition evalST {S A} (c : ST S A) (s : S) : A := fst (c s).
Definition execST {S A} (c : ST S A) (s : S) : S := snd (c s).

(** The task collection of a state: the contents of [this.tasks]. *)
Definition collection (s : State) : list Task :=
  JsArray.contents (world s) (tasks (this s)).

(** What [save] hands to [Storage.saveData] in a state. *)
Definition snapshot (s : State) : Snapshot.t :=
  Snapshot.mk (collection s) (filters (this s)) (sortBy (this s)).

(** [this.tasks] refers to an array that exists. *)
Definition wf (s : State) : Prop :=
  (tasks (this s) < length (arrays (world s)))%nat.

(** The snapshot of the state is what the store holds. *)
Definition persisted (s : State) : Prop :=
  localStorage (world s) !! Storage.STORAGE_KEY = Some (JSON.stringify (snapshot s)).

(** The world after [save] in a state with instance [o]. *)
Definition saved (o : TaskManager) (w : World) : World :=
  mkWorld (arrays w)
          (<[Storage.STORAGE_KEY :=
               JSON.stringify (Snapshot.mk (JsArray.contents w (tasks o))
                                           (filters o) (sortBy o))]>
             (localStorage w))
          (S (setItemCalls w)) (clock w) (ticks w).

(** The world after the array at [l] is given the contents [a]. *)
Definition written (l : loc) (a : list Task) (w : World) : World :=
  mkWorld (<[l := a]> (arrays w)) (localStorage w) (setItemCalls w)
          (clock w) (ticks w).

(** The world after a new array with the contents [a] is allocated. *)
Definition allocated (a : list Task) (w : World) : World :=
  mkWorld (arrays w ++ [a]) (localStorage w) (setItemCalls w) (clock w) (ticks w).

(** The instance after [removeTask]: [this.tasks] is the new array. *)
Definition retargeted (s : State) : TaskManager :=
  mkTaskManager (length (arrays (world s))) (filters (this s)) (sortBy (this s))
                (searchQuery (this s)).

(** The world after [n] readings of the clock. *)
Definition ticked (n : nat) (w : World) : World :=
  mkWorld (arrays w) (localStorage w) (setItemCalls w) (clock w) (n + ticks w).

(** The task that [addTask] builds from two readings of the clock. *)
Definition newTask (w : World) (ttl due prio : string) : Task :=
  mkTask (clock w (ticks w)) (JsString.trim ttl) false prio due
         (clock w (S (ticks w))).

(** Every character of [s] is white space. *)
Definition whitespace_only (s : string) : Prop :=
  forall c, In c (list_ascii_of_string s) -> JsString.isWhiteSpace c = true.

(** [c], started in a state of [P], ends with a result and a state of [Q]. *)
Definition hoare {S A} (P : S -> Prop) (c : ST S A) (Q : A -> S -> Prop) : Prop :=
  forall s, P s -> Q (evalST c s) (execST c s).

(** A comparison function that compares the tasks of [a] by a numeric key. *)
Definition by_key (comparefn : Task -> Task -> number) (key : Task -> Z)
           (a : list Task) : Prop :=
  forall x y, In x a -> In y a -> comparefn x y = Num (key x - key y).

Definition key_le (key : Task -> Z) (x y : Task) : Prop := key x <= key y.

(** [w] comes from [w0] by allocating arrays and by writing to arrays
    allocated since; [l] is one of the new arrays and holds [a]. *)
Record derived (w0 w : World) (l : loc) (a : list Task) : Prop := Derived {
  derived_new : (length (arrays w0) <= l)%nat;
  derived_holds : arrays w !! l = Some a;
  derived_frame : forall k, (k < length (arrays w0))%nat ->
                            arrays w !! k = arrays w0 !! k;
  derived_storage : localStorage w = localStorage w0;
  derived_calls : setItemCalls w = setItemCalls w0;
  derived_clock : clock w = clock w0;
  derived_ticks : ticks w = ticks w0
}.

(** The instance is as in [s0], and so is every array of [s0]; the
    array [l], allocated since, holds [a]. *)
Definition view (s0 : State) (l : loc) (a : list Task) (s : State) : Prop :=
  this s = this s0 /\ derived (world s0) (world s) l a.

(** The conjunction of the active predicates, as the four filtering
    stages apply them. *)
Definition satisfies (o : TaskManager) (t : Task) : bool :=
  (if JsString.truthy (searchQuery o)
   then JsString.includes (JsString.toLowerCase (title t))
                          (JsString.toLowerCase (searchQuery o))
   else true)
  && (if String.eqb (Filters.status (filters o)) "active"
      then negb (completed t) else true)
  && (if String.eqb (Filters.status (filters o)) "completed"
      then completed t else true)
  && match priority_set (Filters.priority (filters o)) with
     | Some p => String.eqb (priority t) p
     | None => true
     end.

Definition byDateCreated (a b : Task) : number :=
  Num (dateCreated b - dateCreated a).

Definition byPriority (a b : Task) : number :=
  sub (toNumber (order (priority a))) (toNumber (order (priority b))).

(** The two sorting stages. *)
Definition arranged (o : TaskManager) (a : list Task) : list Task :=
  let a' := if String.eqb (sortBy o) "dateCreated"
            then JsArray.sorted byDateCreated a else a in
  if String.eqb (sortBy o) "priority" then JsArray.sorted byPriority a' else a'.

(** Case-insensitive substring match of the query on the title; an empty
    query matches every task. *)
Definition matches_search (query : string) (t : Task) : Prop :=
  query = "" \/
  exists pre post,
    JsString.toLowerCase (title t)
    = (pre ++ JsString.toLowerCase query ++ post)%string.

(** [active] keeps the tasks not completed, [completed] the completed
    ones, every other status (so [all]) keeps all. *)
Definition matches_status (status : string) (t : Task) : Prop :=
  (status = "active" -> completed t = false) /\
  (status = "completed" -> completed t = true).

(** A priority filter that is set (a non-empty string) keeps the tasks of
    that priority. *)
Definition matches_priority (p : option string) (t : Task) : Prop :=
  forall v, p = Some v -> v <> "" -> priority t = v.

(** Descending creation time. *)
Definition newest_first (a b : Task) : Prop := dateCreated b <= dateCreated a.

(** Ascending rank, for two tasks that have one. *)
Definition rank_le (a b : Task) : Prop :=
  exists ra rb,
    order (priority a) = Some ra /\ order (priority b) = Some rb /\ ra <= rb.

(** The priority is one of the three that have a rank. *)
Definition known_priority (t : Task) : Prop :=
  priority t = "high" \/ priority t = "medium" \/ priority t = "low".

(** Ascending by rank, read on the tasks that have a rank: no task comes
    before a task of smaller rank. *)
Definition ranked_ascending (l : list Task) : Prop :=
  forall (i j : nat) a b ra rb,
    (i < j)%nat -> l !! i = Some a -> l !! j = Some b ->
    order (priority a) = Some ra -> order (priority b) = Some rb -> ra <= rb.

(** The first task with id [i] in [a] is [t], at index [k]. *)
Definition first_with_id (i : Z) (a : list Task) (k : nat) (t : Task) : Prop :=
  a !! k = Some t /\ id t = i /\
  forall (j : nat) u, (j < k)%nat -> a !! j = Some u -> id u <> i.

(** The instance after [setFilter('priority', v)]. *)
Definition priority_toggled (v : string) (o : TaskManager) : TaskManager :=
  mkTaskManager (tasks o)
    (Filters.mk (Filters.status (filters o))
                (if strict_eq (Filters.priority (filters o)) v then None else Some v))
    (sortBy o) (searchQuery o).

(** The instance after [setFilter('status', v)]. *)
Definition status_selected (v : string) (o : TaskManager) : TaskManager :=
  mkTaskManager (tasks o) (Filters.mk v (Filters.priority (filters o)))
                (sortBy o) (searchQuery o).

(** The sort mode that the constructor reads from a stored one:
    [data?.sortBy || 'custom']. *)
Definition reloaded_sortBy (m : string) : string :=
  if JsString.truthy m then m else "custom".

(** Two sort modes that arrange every list alike. *)
Definition sort_equivalent (m m' : string) : Prop :=
  forall o o', sortBy o = m -> sortBy o' = m' ->
               forall a, arranged o a = arranged o' a.

(** The start of the application: [Storage.initializeSampleData()], then
    [new TaskManager()]. *)
Definition start (w : World) : option State :=
  let w1 := execST Storage.initializeSampleData w in
  match evalST newTaskManager w1 with
  | Some o => Some (mkState o (execST newTaskManager w1))
  | None => None
  end.

(** A browser without stored data whose clock reads [c]. *)
Definition first_visit (c : nat -> Z) : World := mkWorld [] ∅ 0%nat c 0%nat.

(** The clock reads 1000 during the start and 5000 afterwards. *)
Definition clock_5000 (n : nat) : Z := if (n <? 4)%nat then 1000 else 5000.

(** The operations of a session, as data. *)
Inductive op : Type :=
| AddTask (ttl due prio : string)
| RemoveTask (i : Z)
| ToggleTask (i : Z)
| SetSearchQuery (query : string)
| SetSortBy (m : string)
| SetFilter (type value : string)
| GetFilteredTasks.

Definition perform (o : op) : ST State unit :=
  match o with
  | AddTask ttl due prio => addTask ttl due prio ;; ret tt
  | RemoveTask i => removeTask i
  | ToggleTask i => toggleTask i
  | SetSearchQuery query => setSearchQuery query
  | SetSortBy m => setSortBy m
  | SetFilter type value => setFilter type value
  | GetFilteredTasks => getFilteredTasks ;; ret tt
  end.

(** The states of the sessions: a first visit with any clock, then any
    operations and reloads of the page. *)
Inductive reachable : State -> Prop :=
| reachable_start c s : start (first_visit c) = Some s -> reachable s
| reachable_reload s s' : reachable s -> start (world s) = Some s' -> reachable s'
| reachable_perform s o : reachable s -> reachable (execST (perform o) s).

(** A session: the operations of [os], one after the other. *)
Definition session (os : list op) (s : State) : State :=
  fold_left (fun s o => execST (perform o) s) os s.

(** A clock that advances by a second from one reading to the next. *)
Definition clock_seconds (n : nat) : Z := 1000 * Z.of_nat (S n).

(** A state whose collection is [a], with an empty store. *)
Definition example_state (a : list Task) (f : Filters.t) (sb query : string) : State :=
  mkState (mkTaskManager 0%nat f sb query)
          (mkWorld [a] ∅ 0%nat (fun n => 1700000000000 + Z.of_nat n) 0%nat).

Definition no_filters : Filters.t := Filters.mk "all" None.

Definition buy_milk : Task := mkTask 1 "Buy MILK" false "high" "" 1.
Definition bought_milk : Task := mkTask 2 "Buy milk" true "high" "" 2.
Definition milk_the_cow : Task := mkTask 3 "Milk the cow" false "low" "" 3.
Definition walk_dog : Task := mkTask 4 "Walk dog" false "high" "2026-01-01" 4.
Definition almond_milk : Task := mkTask 5 "almond milk" false "high" "" 5.

Definition mixed : State :=
  example_state [buy_milk; bought_milk; milk_the_cow; walk_dog; almond_milk]
                (Filters.mk "active" (Some "high")) "custom" "milk".

Definition task_A : Task := mkTask 10 "A" false "high" "" 10.
Definition task_B : Task := mkTask 20 "B" false "low" "" 20.

(** ** The theme *)

(** The entry of [localStorage] under the theme key holds a raw string,
    not a JSON text; the entries that hold raw strings are kept apart
    from [localStorage w], whose entries stand for JSON texts.  The two
    keys of the program differ, so a write under one never touches the
    other.  Of the document the theme functions use the [data-theme]
    attribute of the root element ([None]: no such attribute,
    [getAttribute] gives [null]) and the text of the theme icon, which
    they set to one of two literals. *)
Inductive icon : Type :=
| Moon
| Sun.

Record Page : Type := mkPage {
  rawItems : gmap string string;
  dataTheme : option string;
  themeIcon : option icon
}.

Definition THEME_KEY : string := "todoAppTheme".

(** [Storage.saveTheme(theme)] *)
Definition saveTheme (theme : string) : ST Page unit :=
  fun p => (tt, mkPage (<[THEME_KEY := theme]> (rawItems p)) (dataTheme p)
                       (themeIcon p)).

(** [Storage.loadTheme()]: [localStorage.getItem(THEME_KEY) || 'light'] *)
Definition loadTheme : ST Page string :=
  fun p => (match rawItems p !! THEME_KEY with
            | Some theme => if JsString.truthy theme then theme else "light"
            | None => "light"
            end, p).

Definition setDataTheme (theme : string) : ST Page unit :=
  fun p => (tt, mkPage (rawItems p) (Some theme) (themeIcon p)).

Definition getDataTheme : ST Page (option string) :=
  fun p => (dataTheme p, p).

Definition setThemeIcon (i : icon) : ST Page unit :=
  fun p => (tt, mkPage (rawItems p) (dataTheme p) (Some i)).

(** [theme === 'light' ? moon : sun] *)
Definition iconFor (theme : string) : icon :=
  if String.eqb theme "light" then Moon else Sun.

(** [UI.initTheme()] *)
Definition initTheme : ST Page unit :=
  theme <- loadTheme ;;
  setDataTheme theme ;;
  setThemeIcon (iconFor theme).

(** [UI.toggleTheme()] *)
Definition toggleTheme : ST Page unit :=
  current <- getDataTheme ;;
  let next := if strict_eq current "light" then "dark" else "light" in
  setDataTheme next ;;
  setThemeIcon (iconFor next) ;;
  saveTheme next.

(** The page shows the theme [t] and the store holds it. *)
Definition themed (t : string) (p : Page) : Prop :=
  dataTheme p = Some t /\ rawItems p !! THEME_KEY = Some t
  /\ themeIcon p = Some (iconFor t).

(** ** Vocabulary of the further properties *)

(** The stored data is missing or falsy: [!this.loadData()] holds. *)
Definition no_data (w : World) : Prop :=
  Json.truthy (evalST Storage.loadData w) = false.

(** The two sample tasks, built from the next four readings of the clock. *)
Definition sampleTasks (w : World) : list Task :=
  [ mkTask (clock w (ticks w) + 1) "Welcome to your task list!" false "high" ""
           (clock w (S (ticks w)));
    mkTask (clock w (S (S (ticks w))) + 2) "Double-click a task to edit" false
           "medium" "" (clock w (S (S (S (ticks w)))) + 1) ].

(** The world after [initializeSampleData] has stored the sample data. *)
Definition seeded (w : World) : World :=
  mkWorld (arrays w)
          (<[Storage.STORAGE_KEY :=
               JSON.stringify (Snapshot.mk (sampleTasks w) (Filters.mk "all" None)
                                           "custom")]> (localStorage w))
          (S (setItemCalls w)) (clock w) (4 + ticks w).

(** A property that is missing or falsy, so that [v || d] is [d]. *)
Definition falsy (v : option json) : Prop :=
  match v with
  | Some j => Json.truthy j = false
  | None => True
  end.

(** The store holds the collection, the filters and the sort mode of the
    state; a stored empty sort mode stands for the mode custom that the
    constructor made of it. *)
Definition in_sync (s : State) : Prop :=
  exists m,
    localStorage (world s) !! Storage.STORAGE_KEY
    = Some (JSON.stringify (Snapshot.mk (collection s) (filters (this s)) m))
    /\ (m = sortBy (this s) \/ (m = "" /\ sortBy (this s) = "custom")).

(** The operations that call [save]. *)
Definition writes (o : op) : bool :=
  match o with
  | AddTask ttl _ _ => JsString.truthy (JsString.trim ttl)
  | RemoveTask _ | ToggleTask _ | SetSortBy _ | SetFilter _ _ => true
  | SetSearchQuery _ | GetFilteredTasks => false
  end.

(** A title as [addTask] stores it: not empty, without white space at
    either end. *)
Definition titled (t : Task) : Prop :=
  title t <> "" /\ JsString.trim (title t) = title t.

(** The ids of the collection, in its order. *)
Definition ids (s : State) : list Z := List.map id (collection s).

(** The contents of the array that getFilteredTasks returns. *)
Definition shown (s : State) : list Task :=
  JsArray.contents (world (execST getFilteredTasks s)) (evalST getFilteredTasks s).

(** * Properties *)

(** ** Strings *)

Section Strings.

Import JsString.

Lemma trimStart_empty s : trimStart s = "" <-> whitespace_only s.
Proof.
  unfold whitespace_only. induction s as [|c s IH]; simpl.
  - split; [intros _ c [] | reflexivity].
  - destruct (isWhiteSpace c) eqn:Hc.
    + rewrite IH. split.
      * intros H x [<-|Hx]; auto.
      * intros H x Hx. apply H. now right.
    + split; [discriminate|].
      intros H. specialize (H c (or_introl eq_refl)). congruence.
Qed.

Lemma trimStart_head s c r : trimStart s = String c r -> isWhiteSpace c = false.
Proof.
  induction s as [|a s IH]; simpl; [discriminate|].
  destruct (isWhiteSpace a) eqn:Ha; [exact IH|].
  intros [= -> ->]. exact Ha.
Qed.

Lemma trimEnd_head c r : isWhiteSpace c = false -> trimEnd (String c r) <> "".
Proof.
  intros Hc. simpl. destruct (trimEnd r); [rewrite Hc|]; discriminate.
Qed.

(** The trimmed form is empty exactly for blank and white-space-only strings. *)
Lemma trim_empty s : trim s = "" <-> whitespace_only s.
Proof.
  unfold trim. rewrite <- trimStart_empty. split.
  - intros H. destruct (trimStart s) as [|c r] eqn:E; [reflexivity|].
    exfalso. eapply trimEnd_head; [|exact H]. eapply trimStart_head, E.
  - intros ->. reflexivity.
Qed.

Lemma truthy_false s : truthy s = false <-> s = "".
Proof. destruct s; simpl; split; congruence. Qed.

Lemma truthy_true s : truthy s = true <-> s <> "".
Proof. destruct s; simpl; split; congruence. Qed.

Lemma startsWith_spec s p :
  startsWith s p = true <-> exists post, s = (p ++ post)%string.
Proof.
  revert s. induction p as [|a p IH]; intros s; simpl.
  - split; [intros _; now exists s | now destruct s].
  - destruct s as [|b s]; simpl.
    + split; [discriminate | intros [post [=]]].
    + rewrite andb_true_iff, IH. split.
      * intros [Hab [post ->]]. apply Ascii.eqb_eq in Hab as ->. now exists post.
      * intros [post [= -> ->]]. split; [apply Ascii.eqb_refl | now exists post].
Qed.

(** [includes] is the substring test. *)
Lemma includes_spec s p :
  includes s p = true <-> exists pre post, s = (pre ++ p ++ post)%string.
Proof.
  induction s as [|b s IH].
  - cbn [includes]. rewrite orb_false_r, startsWith_spec. split.
    + intros [post ->]. now exists "", post.
    + intros [[|c pre] [post H]]; [now exists post | discriminate].
  - cbn [includes]. rewrite orb_true_iff, startsWith_spec, IH. split.
    + intros [[post ->] | (pre & post & ->)].
      * now exists "", post.
      * now exists (String b pre), post.
    + intros [[|c pre] [post H]].
      * left. now exists post.
      * right. injection H as -> ->. now exists pre, post.
Qed.

Lemma includes_empty s : includes s "" = true.
Proof. destruct s; reflexivity. Qed.

End Strings.

(** ** The sort *)

Section Sort.

Import JsArray.

Variable comparefn : Task -> Task -> number.

Lemma insert_perm x a : Permutation (insert comparefn x a) (x :: a).
Proof.
  induction a as [|y a IH]; simpl; [reflexivity|].
  destruct (0 <? sortCompare comparefn x y); [|reflexivity].
  rewrite IH. apply perm_swap.
Qed.

(** The sort rearranges: nothing is lost, nothing is added. *)
Lemma sorted_perm a : Permutation (sorted comparefn a) a.
Proof.
  induction a as [|x a IH]; simpl; [reflexivity|].
  rewrite insert_perm. now constructor.
Qed.

(** A comparison by a numeric key. *)
Variable key : Task -> Z.

Lemma insert_sorted x a :
  (forall y, In y a -> comparefn x y = Num (key x - key y)) ->
  StronglySorted (key_le key) a -> StronglySorted (key_le key) (insert comparefn x a).
Proof.
  intros Hcmp Hs. induction Hs as [|y a Hs IH Hy]; simpl.
  - repeat constructor.
  - unfold sortCompare. rewrite (Hcmp y) by now left.
    destruct (0 <? key x - key y) eqn:E.
    + apply Z.ltb_lt in E. constructor.
      * apply IH. intros z Hz. apply Hcmp. now right.
      * apply (Permutation_Forall (Permutation_sym (insert_perm x a))).
        constructor; [unfold key_le; lia | exact Hy].
    + apply Z.ltb_ge in E. constructor; [now constructor|].
      constructor; [unfold key_le; lia|].
      eapply Forall_impl; [exact Hy|]. unfold key_le. intros z Hz. cbn in Hz. lia.
Qed.

(** With such a comparison function the result is in ascending order of
    the key. *)
Lemma sorted_sorted a :
  by_key comparefn key a -> StronglySorted (key_le key) (sorted comparefn a).
Proof.
  unfold by_key. induction a as [|x a IH]; intros Hk; simpl; [constructor|].
  apply insert_sorted.
  - intros y Hy. apply Hk; [now left|]. right.
    eapply Permutation_in; [apply sorted_perm | exact Hy].
  - apply IH. intros y z Hy Hz. apply Hk; now right.
Qed.

Lemma insert_stable x a (k : Z) :
  (forall y, In y a -> comparefn x y = Num (key x - key y)) ->
  List.filter (fun t => key t =? k) (insert comparefn x a)
  = List.filter (fun t => key t =? k) (x :: a).
Proof.
  intros Hcmp. induction a as [|y a IH]; [reflexivity|].
  cbn [insert]. unfold sortCompare. rewrite (Hcmp y) by now left.
  destruct (Z.ltb_spec 0 (key x - key y)) as [Hlt|Hge]; [|reflexivity].
  cbn [List.filter]. rewrite IH by (intros z Hz; apply Hcmp; now right).
  cbn [List.filter].
  destruct (Z.eqb_spec (key x) k), (Z.eqb_spec (key y) k); try reflexivity. lia.
Qed.

(** ... and it is stable: tasks of equal key keep their order. *)
Lemma sorted_stable a (k : Z) :
  by_key comparefn key a ->
  List.filter (fun t => key t =? k) (sorted comparefn a)
  = List.filter (fun t => key t =? k) a.
Proof.
  unfold by_key. induction a as [|x a IH]; intros Hk; [reflexivity|].
  cbn [sorted]. rewrite insert_stable.
  - cbn [List.filter]. rewrite IH; [reflexivity|].
    intros y z Hy Hz. apply Hk; now right.
  - intros y Hy. apply Hk; [now left|]. right.
    eapply Permutation_in; [apply sorted_perm | exact Hy].
Qed.

(** A list sorted by the key is determined by the order in which it holds
    the tasks of each key. *)
Lemma stable_sorted_unique l l' :
  StronglySorted (key_le key) l -> StronglySorted (key_le key) l' ->
  (forall k, List.filter (fun t => key t =? k) l
             = List.filter (fun t => key t =? k) l') ->
  l = l'.
Proof.
  intros Hl. revert l'. induction Hl as [|x r Hr IH Hx]; intros l' Hl' Hf.
  - destruct l' as [|y r']; [reflexivity|].
    specialize (Hf (key y)). cbn in Hf. rewrite Z.eqb_refl in Hf. discriminate.
  - destruct Hl' as [|y r' Hr' Hy].
    + specialize (Hf (key x)). cbn in Hf. rewrite Z.eqb_refl in Hf. discriminate.
    + rewrite List.Forall_forall in Hx, Hy. unfold key_le in Hx, Hy.
      assert (Hxy : key x = key y).
      { apply Z.le_antisymm.
        - pose proof (Hf (key y)) as H. cbn in H. rewrite (Z.eqb_refl (key y)) in H.
          destruct (Z.eqb_spec (key x) (key y)) as [E|_]; [lia|].
          apply Hx.
          assert (Hin : In y (List.filter (fun t => key t =? key y) r))
            by (rewrite H; now left).
          now apply List.filter_In in Hin.
        - pose proof (Hf (key x)) as H. cbn in H. rewrite (Z.eqb_refl (key x)) in H.
          destruct (Z.eqb_spec (key y) (key x)) as [E|_]; [lia|].
          apply Hy.
          assert (Hin : In x (List.filter (fun t => key t =? key x) r'))
            by (rewrite <- H; now left).
          now apply List.filter_In in Hin. }
      assert (x = y) as <-.
      { pose proof (Hf (key x)) as H. cbn in H.
        rewrite <- Hxy, Z.eqb_refl in H. congruence. }
      f_equal. apply IH; [exact Hr'|]. intros k. specialize (Hf k). cbn in Hf.
      destruct (key x =? k); congruence.
Qed.

(** So the model of the sort is no choice: for a comparison by a key,
    every sorted and stable arrangement of [a] is [sorted comparefn a]. *)
Lemma sorted_determined a l' :
  by_key comparefn key a ->
  StronglySorted (key_le key) l' ->
  (forall k, List.filter (fun t => key t =? k) l'
             = List.filter (fun t => key t =? k) a) ->
  l' = sorted comparefn a.
Proof.
  intros Hk Hs Hf. apply stable_sorted_unique; [exact Hs | now apply sorted_sorted|].
  intros k. now rewrite Hf, sorted_stable.
Qed.

End Sort.

(** ** A small program logic for the state monad *)

Lemma hoare_ret {S A} (P : A -> S -> Prop) (a : A) : hoare (P a) (ret a) P.
Proof. intros s H. exact H. Qed.

Lemma hoare_bind {S A B} (P : S -> Prop) (Q : A -> S -> Prop) (R : B -> S -> Prop)
      (c : ST S A) (k : A -> ST S B) :
  hoare P c Q -> (forall a, hoare (Q a) (k a) R) -> hoare P (bind c k) R.
Proof.
  unfold hoare, evalST, execST, bind. intros Hc Hk s Hs.
  specialize (Hc s Hs). destruct (c s) as [a s']. apply Hk, Hc.
Qed.

Lemma hoare_post {S A} (P : S -> Prop) (Q Q' : A -> S -> Prop) (c : ST S A) :
  hoare P c Q -> (forall a s, Q a s -> Q' a s) -> hoare P c Q'.
Proof. intros Hc HQ s Hs. apply HQ, Hc, Hs. Qed.

(** ** Arrays derived from the collection *)

Section Derived.

Import JsArray.

Lemma derived_lt w0 w l a : derived w0 w l a -> (l < length (arrays w))%nat.
Proof. intros H. eapply lookup_lt_Some, derived_holds, H. Qed.

Lemma derived_contents w0 w l a : derived w0 w l a -> contents w l = a.
Proof. intros H. unfold contents. now rewrite (derived_holds _ _ _ _ H). Qed.

Lemma derived_le w0 w l a :
  derived w0 w l a -> (length (arrays w0) <= length (arrays w))%nat.
Proof.
  intros H. destruct (Nat.eq_dec (length (arrays w0)) 0%nat) as [->|Hn]; [lia|].
  assert (Hk : (pred (length (arrays w0)) < length (arrays w0))%nat) by lia.
  pose proof (derived_frame _ _ _ _ H _ Hk) as Hf.
  destruct (lookup_lt_is_Some_2 (arrays w0) _ Hk) as [x Hx].
  rewrite Hx in Hf. apply lookup_lt_Some in Hf. lia.
Qed.

Lemma spread_derived w0 l0 :
  derived w0 (execST (spread l0) w0) (evalST (spread l0) w0) (contents w0 l0).
Proof.
  unfold spread, alloc, read, bind, evalST, execST; simpl.
  constructor; simpl; try reflexivity.
  - rewrite lookup_app_r by lia. now rewrite Nat.sub_diag.
  - intros k Hk. now rewrite lookup_app_l.
Qed.

Lemma filter_derived p w0 w l a :
  derived w0 w l a ->
  derived w0 (execST (filter p l) w) (evalST (filter p l) w) (List.filter p a).
Proof.
  intros H. pose proof (derived_le _ _ _ _ H) as Hle.
  unfold filter, alloc, read, bind, evalST, execST; simpl.
  rewrite (derived_contents _ _ _ _ H).
  constructor; simpl; try apply H.
  - lia.
  - rewrite lookup_app_r by lia. now rewrite Nat.sub_diag.
  - intros k Hk. rewrite lookup_app_l by lia. now apply H.
Qed.

Lemma sort_derived comparefn w0 w l a :
  derived w0 w l a ->
  derived w0 (execST (sort comparefn l) w) l (sorted comparefn a).
Proof.
  intros H. pose proof (derived_lt _ _ _ _ H) as Hlt.
  unfold sort, write, read, bind, evalST, execST; simpl.
  rewrite (derived_contents _ _ _ _ H).
  constructor; simpl; try apply H.
  - now apply list_lookup_insert_eq.
  - intros k Hk. rewrite list_lookup_insert_ne; [now apply H|].
    pose proof (derived_new _ _ _ _ H). lia.
Qed.

End Derived.

(** ** The derived view of getFilteredTasks *)

Lemma filter_all {A} (a : list A) : List.filter (fun _ => true) a = a.
Proof. induction a as [|x a IH]; simpl; congruence. Qed.

Lemma filter_twice {A} (p q : A -> bool) (a : list A) :
  List.filter q (List.filter p a) = List.filter (fun x => p x && q x) a.
Proof.
  induction a as [|x a IH]; simpl; [reflexivity|].
  destruct (p x); simpl; [destruct (q x)|]; congruence.
Qed.

Lemma filter_when {A} (b : bool) (p : A -> bool) (a : list A) :
  (if b then List.filter p a else a)
  = List.filter (fun x => if b then p x else true) a.
Proof. destruct b; [reflexivity | now rewrite filter_all]. Qed.

Lemma filter_when_some {A B} (o : option B) (p : B -> A -> bool) (a : list A) :
  match o with Some x => List.filter (p x) a | None => a end
  = List.filter (fun t => match o with Some x => p x t | None => true end) a.
Proof. destruct o; [reflexivity | now rewrite filter_all]. Qed.

(** *** The stages of getFilteredTasks *)

Section View.

Import JsArray.

Variable s0 : State.

Lemma evalST_liftW {A} (c : ST World A) s :
  evalST (liftW c) s = evalST c (world s).
Proof. unfold evalST, liftW. now destruct (c (world s)). Qed.

Lemma execST_liftW {A} (c : ST World A) s :
  execST (liftW c) s = mkState (this s) (execST c (world s)).
Proof. unfold execST, liftW. now destruct (c (world s)). Qed.

Lemma hoare_getThis {A} (k : TaskManager -> ST State A) (R : A -> State -> Prop) :
  hoare (eq s0) (k (this s0)) R -> hoare (eq s0) (bind getThis k) R.
Proof. intros H s <-. exact (H s0 eq_refl). Qed.

Lemma view_spread l0 :
  hoare (eq s0) (liftW (spread l0)) (fun l => view s0 l (contents (world s0) l0)).
Proof.
  intros s <-. rewrite evalST_liftW, execST_liftW.
  split; [reflexivity | apply spread_derived].
Qed.

Lemma view_filter (b : bool) p l a :
  hoare (view s0 l a) (if b then liftW (filter p l) else ret l)
        (fun l' => view s0 l' (if b then List.filter p a else a)).
Proof.
  intros s [Ht Hd]. destruct b; [|now split].
  rewrite evalST_liftW, execST_liftW.
  split; [exact Ht | now apply filter_derived].
Qed.

Lemma view_filter_some {B} (o : option B) (p : B -> Task -> bool) l a :
  hoare (view s0 l a)
        (match o with Some x => liftW (filter (p x) l) | None => ret l end)
        (fun l' => view s0 l' (match o with
                            | Some x => List.filter (p x) a
                            | None => a
                            end)).
Proof.
  destruct o as [x|]; [apply (view_filter true) | apply (view_filter false (fun _ => true))].
Qed.

Lemma view_sort (b : bool) comparefn l a :
  hoare (view s0 l a) (if b then liftW (sort comparefn l) else ret tt)
        (fun _ => view s0 l (if b then sorted comparefn a else a)).
Proof.
  intros s [Ht Hd]. destruct b; [|now split].
  rewrite execST_liftW. split; [exact Ht | now apply sort_derived].
Qed.

Lemma view_ret l a : hoare (view s0 l a) (ret l) (fun l' => view s0 l' a).
Proof. intros s H. exact H. Qed.

(** getFilteredTasks returns a new array that holds the tasks of the
    collection that satisfy the predicates, arranged by the sort mode. *)
Lemma getFilteredTasks_view :
  view s0 (evalST getFilteredTasks s0)
       (arranged (this s0) (List.filter (satisfies (this s0)) (collection s0)))
       (execST getFilteredTasks s0).
Proof.
  cut (hoare (eq s0) getFilteredTasks
         (fun r => view s0 r (arranged (this s0)
                             (List.filter (satisfies (this s0)) (collection s0))))).
  { intros H. exact (H s0 eq_refl). }
  unfold getFilteredTasks. apply hoare_getThis.
  eapply hoare_bind; [apply view_spread | intros l0].
  eapply hoare_bind; [apply view_filter | intros l1].
  eapply hoare_bind; [apply view_filter | intros l2].
  eapply hoare_bind; [apply view_filter | intros l3].
  eapply hoare_bind;
    [apply (view_filter_some _ (fun p t => String.eqb (priority t) p)) | intros l4].
  eapply hoare_bind; [apply view_sort | intros u1].
  eapply hoare_bind; [apply view_sort | intros u2].
  eapply hoare_post; [apply view_ret|].
  intros r s H. cbv beta in H.
  rewrite (filter_when_some _ (fun p t => String.eqb (priority t) p)) in H.
  rewrite !filter_when, !filter_twice in H.
  erewrite (List.filter_ext _ (satisfies (this s0))) in H; [exact H|].
  intros t. unfold satisfies. now rewrite !andb_assoc.
Qed.

End View.

(** ** The predicates of the specification *)

Lemma satisfies_spec o t :
  satisfies o t = true <->
  matches_search (searchQuery o) t
  /\ matches_status (Filters.status (filters o)) t
  /\ matches_priority (Filters.priority (filters o)) t.
Proof.
  unfold satisfies, matches_search, matches_status, matches_priority.
  rewrite !andb_true_iff.
  assert (Hq : (if JsString.truthy (searchQuery o)
                then JsString.includes (JsString.toLowerCase (title t))
                       (JsString.toLowerCase (searchQuery o))
                else true) = true <->
               (searchQuery o = "" \/
                exists pre post, JsString.toLowerCase (title t)
                  = (pre ++ JsString.toLowerCase (searchQuery o) ++ post)%string)).
  { destruct (JsString.truthy (searchQuery o)) eqn:E.
    - rewrite includes_spec. apply truthy_true in E. tauto.
    - apply truthy_false in E. tauto. }
  assert (Ha : (if String.eqb (Filters.status (filters o)) "active"
                then negb (completed t) else true) = true <->
               (Filters.status (filters o) = "active" -> completed t = false)).
  { destruct (String.eqb_spec (Filters.status (filters o)) "active") as [->|Hne].
    - rewrite negb_true_iff. tauto.
    - tauto. }
  assert (Hc : (if String.eqb (Filters.status (filters o)) "completed"
                then completed t else true) = true <->
               (Filters.status (filters o) = "completed" -> completed t = true)).
  { destruct (String.eqb_spec (Filters.status (filters o)) "completed") as [->|Hne];
      tauto. }
  assert (Hp : match priority_set (Filters.priority (filters o)) with
               | Some p => String.eqb (priority t) p
               | None => true
               end = true <->
               (forall v, Filters.priority (filters o) = Some v -> v <> "" ->
                          priority t = v)).
  { destruct (Filters.priority (filters o)) as [p|]; simpl.
    - destruct (JsString.truthy p) eqn:E.
      + rewrite String.eqb_eq. apply truthy_true in E. split.
        * intros H v [= <-] _. exact H.
        * intros H. now apply H.
      + apply truthy_false in E. split; [|reflexivity].
        intros _ v [= <-] Hv. contradiction.
    - split; [intros _ v [=] | reflexivity]. }
  rewrite Hq, Ha, Hc, Hp. tauto.
Qed.

(** Nothing that existed before the call is changed by it. *)
Lemma getFilteredTasks_frame s :
  let s' := execST getFilteredTasks s in
  this s' = this s
  /\ (forall l, (l < length (arrays (world s)))%nat ->
                JsArray.contents (world s') l = JsArray.contents (world s) l)
  /\ localStorage (world s') = localStorage (world s)
  /\ setItemCalls (world s') = setItemCalls (world s)
  /\ ticks (world s') = ticks (world s).
Proof.
  destruct (getFilteredTasks_view s) as [Ht Hd]. cbv zeta.
  repeat split; try apply Hd; [exact Ht|].
  intros l Hl. unfold JsArray.contents. now rewrite (derived_frame _ _ _ _ Hd).
Qed.

Lemma getFilteredTasks_result s :
  JsArray.contents (world (execST getFilteredTasks s)) (evalST getFilteredTasks s)
  = arranged (this s) (List.filter (satisfies (this s)) (collection s)).
Proof.
  destruct (getFilteredTasks_view s) as [_ Hd]. exact (derived_contents _ _ _ _ Hd).
Qed.

Lemma arranged_perm o a : Permutation (arranged o a) a.
Proof.
  unfold arranged.
  destruct (String.eqb (sortBy o) "dateCreated"), (String.eqb (sortBy o) "priority");
    rewrite ?sorted_perm; reflexivity.
Qed.

(** C1: getFilteredTasks returns exactly the tasks of the stored
    collection that satisfy all active predicates at once (the search
    query, when not empty, occurs in the title without regard to case;
    AND the status filter: active keeps the tasks not completed, completed
    the completed ones, all keeps every task; AND the priority is the one
    of the priority filter when it is set), each as often as the collection
    has it; the call leaves the instance (the filters, the sort mode, the
    search query and the reference to the collection), the collection and
    every other array that existed, and the persistence store unchanged. *)
Theorem getFilteredTasks_filters (s : State) :
  wf s ->
  let r := evalST getFilteredTasks s in
  let s' := execST getFilteredTasks s in
  Permutation (JsArray.contents (world s') r)
              (List.filter (satisfies (this s)) (collection s))
  /\ (forall t, In t (JsArray.contents (world s') r) <->
                In t (collection s)
                /\ matches_search (searchQuery (this s)) t
                /\ matches_status (Filters.status (filters (this s))) t
                /\ matches_priority (Filters.priority (filters (this s))) t)
  /\ this s' = this s
  /\ collection s' = collection s
  /\ (forall l, (l < length (arrays (world s)))%nat ->
                JsArray.contents (world s') l = JsArray.contents (world s) l)
  /\ localStorage (world s') = localStorage (world s)
  /\ setItemCalls (world s') = setItemCalls (world s).
Proof.
  intros Hwf r s'. subst r s'.
  destruct (getFilteredTasks_frame s) as (Ht & Hf & Hs & Hc & _).
  pose proof (getFilteredTasks_result s) as Hr.
  set (s' := execST getFilteredTasks s) in *.
  set (r := evalST getFilteredTasks s) in *.
  split; [|split; [|split; [exact Ht|split; [|split; [exact Hf|now split]]]]].
  - rewrite Hr. apply arranged_perm.
  - intros t. rewrite <- satisfies_spec, <- List.filter_In, Hr. split.
    + apply Permutation_in, arranged_perm.
    + apply Permutation_in. symmetry. apply arranged_perm.
  - unfold collection. rewrite Ht. apply Hf, Hwf.
Qed.

(** ** The order of the derived view *)

Lemma order_known t : known_priority t <-> exists r, order (priority t) = Some r.
Proof.
  unfold known_priority, order. split.
  - intros [-> | [-> | ->]]; simpl; eauto.
  - intros [r Hr].
    destruct (String.eqb_spec (priority t) "high"); [tauto|].
    destruct (String.eqb_spec (priority t) "medium"); [tauto|].
    destruct (String.eqb_spec (priority t) "low"); [tauto|discriminate].
Qed.

Lemma StronglySorted_weaken {A} (R R' : A -> A -> Prop) (l : list A) :
  (forall x y, In x l -> In y l -> R x y -> R' x y) ->
  StronglySorted R l -> StronglySorted R' l.
Proof.
  intros HR Hs. induction Hs as [|x l Hs IH Hx]; constructor.
  - apply IH. intros y z Hy Hz. apply HR; now right.
  - rewrite List.Forall_forall in *. intros y Hy.
    apply HR; [now left | now right | now apply Hx].
Qed.

Lemma sorted_byDateCreated a :
  StronglySorted newest_first (JsArray.sorted byDateCreated a).
Proof.
  apply (StronglySorted_weaken (key_le (fun t => - dateCreated t))).
  - unfold key_le, newest_first. intros x y _ _ H. lia.
  - apply sorted_sorted. intros x y _ _. unfold byDateCreated. f_equal. lia.
Qed.

Lemma sorted_byPriority a :
  (forall t, In t a -> known_priority t) ->
  StronglySorted rank_le (JsArray.sorted byPriority a).
Proof.
  intros Hk.
  apply (StronglySorted_weaken (key_le (fun t => default 0 (order (priority t))))).
  - unfold key_le, rank_le. intros x y Hx Hy H.
    assert (Hin : forall z, In z (JsArray.sorted byPriority a) ->
                            exists r, order (priority z) = Some r).
    { intros z Hz. apply order_known, Hk.
      eapply Permutation_in; [apply sorted_perm | exact Hz]. }
    destruct (Hin x Hx) as [rx Ex], (Hin y Hy) as [ry Ey].
    rewrite Ex, Ey in H. simpl in H. eauto.
  - apply sorted_sorted. intros x y Hx Hy. unfold byPriority.
    destruct (proj1 (order_known x) (Hk x Hx)) as [rx ->].
    destruct (proj1 (order_known y) (Hk y Hy)) as [ry ->]. reflexivity.
Qed.

Lemma StronglySorted_ranked l : StronglySorted rank_le l -> ranked_ascending l.
Proof.
  intros Hs. induction Hs as [|x l Hs IH Hx]; intros i j a b ra rb Hij Hi Hj Ha Hb.
  - now rewrite lookup_nil in Hi.
  - destruct j as [|j]; [lia|]. simpl in Hj. destruct i as [|i].
    + injection Hi as ->. rewrite List.Forall_forall in Hx.
      destruct (Hx b) as (ra' & rb' & Ea & Eb & Hle).
      { apply list_elem_of_In. eapply list_elem_of_lookup_2, Hj. }
      congruence.
    + simpl in Hi. eapply (IH i j); eauto. lia.
Qed.

(** C2 (amended): the result holds the tasks left by the filtering
    stages; under sort mode dateCreated it is in descending order of the
    creation timestamp; under sort mode priority, when every task left by
    the filters has priority high, medium or low, it is in ascending order
    of the rank high=0, medium=1, low=2; under sort mode custom (and under
    every mode other than dateCreated and priority) it is the filtered list
    in the order of the collection.  For A (high, created t1) and B (low,
    created t2 > t1) mode dateCreated gives [B, A], mode priority [A, B],
    and mode custom the insertion order. *)
Theorem getFilteredTasks_order (s : State) :
  let out := JsArray.contents (world (execST getFilteredTasks s))
                              (evalST getFilteredTasks s) in
  let kept := List.filter (satisfies (this s)) (collection s) in
  Permutation out kept
  /\ (sortBy (this s) = "dateCreated" -> StronglySorted newest_first out)
  /\ (sortBy (this s) = "priority" ->
      (forall t, In t kept -> known_priority t) ->
      StronglySorted rank_le out /\ ranked_ascending out)
  /\ (sortBy (this s) = "custom" -> out = kept)
  /\ (sortBy (this s) <> "dateCreated" -> sortBy (this s) <> "priority" ->
      out = kept)
  /\ (forall A B,
        priority A = "high" -> priority B = "low" ->
        dateCreated A < dateCreated B ->
        kept = [A; B] \/ kept = [B; A] ->
        (sortBy (this s) = "dateCreated" -> out = [B; A])
        /\ (sortBy (this s) = "priority" -> out = [A; B])
        /\ (sortBy (this s) = "custom" -> out = kept)).
Proof.
  intros out kept. subst out. rewrite getFilteredTasks_result. fold kept.
  assert (Hother : sortBy (this s) <> "dateCreated" ->
                   sortBy (this s) <> "priority" ->
                   arranged (this s) kept = kept).
  { intros H1 H2. unfold arranged.
    apply String.eqb_neq in H1, H2. now rewrite H1, H2. }
  assert (Hdate : sortBy (this s) = "dateCreated" ->
                  arranged (this s) kept = JsArray.sorted byDateCreated kept).
  { intros H. unfold arranged. now rewrite H. }
  assert (Hprio : sortBy (this s) = "priority" ->
                  arranged (this s) kept = JsArray.sorted byPriority kept).
  { intros H. unfold arranged. now rewrite H. }
  assert (Hcustom : sortBy (this s) = "custom" -> arranged (this s) kept = kept).
  { intros H. apply Hother; rewrite H; discriminate. }
  split; [apply arranged_perm|].
  split; [intros H; rewrite (Hdate H); apply sorted_byDateCreated|].
  split.
  { intros H Hk. rewrite (Hprio H).
    assert (Hs := sorted_byPriority kept Hk).
    split; [exact Hs | now apply StronglySorted_ranked]. }
  split; [exact Hcustom|]. split; [exact Hother|].
  intros A B HA HB Hlt Hkept.
  split; [|split; [|exact Hcustom]].
  - intros H. rewrite (Hdate H).
    destruct Hkept as [-> | ->]; simpl; unfold JsArray.sortCompare, byDateCreated.
    + destruct (Z.ltb_spec 0 (dateCreated B - dateCreated A)); [reflexivity|lia].
    + destruct (Z.ltb_spec 0 (dateCreated A - dateCreated B)); [lia|reflexivity].
  - intros H. rewrite (Hprio H).
    destruct Hkept as [-> | ->]; simpl; unfold JsArray.sortCompare, byPriority;
      rewrite HA, HB; reflexivity.
Qed.

(** ** The mutating operations *)

Lemma save_run s : save s = (tt, mkState (this s) (saved (this s) (world s))).
Proof. reflexivity. Qed.

Lemma saved_persisted o w : persisted (mkState o (saved o w)).
Proof. unfold persisted, saved, snapshot, collection; simpl. apply lookup_insert_eq. Qed.

Lemma contents_written l a w :
  (l < length (arrays w))%nat -> JsArray.contents (written l a w) l = a.
Proof.
  intros H. unfold JsArray.contents, written; simpl.
  now rewrite list_lookup_insert_eq.
Qed.

Lemma contents_written_ne l l' a w :
  l <> l' -> JsArray.contents (written l a w) l' = JsArray.contents w l'.
Proof.
  intros H. unfold JsArray.contents, written; simpl.
  now rewrite list_lookup_insert_ne.
Qed.

Lemma contents_saved o w l : JsArray.contents (saved o w) l = JsArray.contents w l.
Proof. reflexivity. Qed.

Lemma collection_written o w a :
  (tasks o < length (arrays w))%nat ->
  collection (mkState o (saved o (written (tasks o) a w))) = a.
Proof.
  intros H. unfold collection. cbn [this world]. rewrite contents_saved.
  now apply contents_written.
Qed.

Lemma wf_written o w a :
  (tasks o < length (arrays w))%nat ->
  wf (mkState o (saved o (written (tasks o) a w))).
Proof. intros H. unfold wf; simpl. now rewrite length_insert. Qed.

Lemma addTask_blank s ttl due prio :
  JsString.trim ttl = "" ->
  addTask ttl due prio s
  = (Result.mk false (Some "Task title cannot be empty"), s).
Proof. intros H. unfold addTask. now rewrite H. Qed.

Lemma addTask_run s ttl due prio :
  JsString.trim ttl <> "" ->
  addTask ttl due prio s
  = (Result.mk true None,
     mkState (this s)
       (saved (this s)
          (written (tasks (this s))
                   (collection s ++ [newTask (world s) ttl due prio])
                   (ticked 2 (world s))))).
Proof.
  intros H. unfold addTask. apply truthy_true in H. rewrite H. reflexivity.
Qed.

(** A successful [addTask] appends the new task to the collection. *)
Lemma addTask_success s ttl due prio :
  wf s -> JsString.trim ttl <> "" ->
  collection (execST (addTask ttl due prio) s)
  = collection s ++ [newTask (world s) ttl due prio]
  /\ wf (execST (addTask ttl due prio) s).
Proof.
  intros Hwf Ht. unfold execST. rewrite (addTask_run _ _ _ _ Ht). cbn [snd].
  split; [now apply collection_written | now apply wf_written].
Qed.

Lemma removeTask_run s i :
  removeTask i s
  = (tt,
     mkState (retargeted s)
       (saved (retargeted s)
          (allocated (List.filter (fun t => negb (id t =? i)) (collection s))
                     (world s)))).
Proof. reflexivity. Qed.

Lemma collection_allocated s a :
  collection (mkState (retargeted s) (saved (retargeted s) (allocated a (world s))))
  = a.
Proof.
  unfold collection, JsArray.contents. cbn.
  rewrite lookup_app_r by lia. now rewrite Nat.sub_diag.
Qed.

Lemma toggleTask_found s i k t :
  list_find (fun t => Is_true (id t =? i)) (collection s) = Some (k, t) ->
  toggleTask i s
  = (tt, mkState (this s)
           (saved (this s)
              (written (tasks (this s)) (alter toggle k (collection s)) (world s)))).
Proof.
  intros H. unfold toggleTask, bind, getThis, liftW, JsArray.find, JsArray.read,
    bind, ret. cbn. unfold collection in H. now rewrite H.
Qed.

Lemma toggleTask_absent s i :
  list_find (fun t => Is_true (id t =? i)) (collection s) = None ->
  toggleTask i s = (tt, mkState (this s) (saved (this s) (world s))).
Proof.
  intros H. unfold toggleTask, bind, getThis, liftW, JsArray.find, JsArray.read,
    bind, ret. cbn. unfold collection in H. rewrite H. now destruct s.
Qed.

(** C3: for a title whose trimmed form is empty (a blank or white-space-only
    title) addTask returns a failure with a non-empty error message and
    leaves the whole state as it was: the collection, the filters, the sort
    mode and the store, to which nothing is written. *)
Theorem addTask_blank_title (s : State) (ttl due prio : string) :
  JsString.trim ttl = "" \/ whitespace_only ttl ->
  let r := evalST (addTask ttl due prio) s in
  let s' := execST (addTask ttl due prio) s in
  Result.success r = false
  /\ (exists msg, Result.error r = Some msg /\ msg <> "")
  /\ s' = s
  /\ collection s' = collection s
  /\ filters (this s') = filters (this s)
  /\ sortBy (this s') = sortBy (this s)
  /\ localStorage (world s') = localStorage (world s)
  /\ setItemCalls (world s') = setItemCalls (world s).
Proof.
  intros H r s'. subst r s'.
  assert (Ht : JsString.trim ttl = "") by (destruct H; [assumption | now apply trim_empty]).
  unfold evalST, execST. rewrite (addTask_blank _ _ _ _ Ht). simpl.
  repeat split. eexists. split; [reflexivity | discriminate].
Qed.

(** C4: for a title whose trimmed form is not empty addTask returns
    success and appends one task at the end of the collection: not
    completed, with the trimmed title, the given priority and due date, and
    with id and dateCreated read from the clock (two consecutive readings);
    the tasks that were there are unchanged, and the snapshot with the new
    collection is written to the store. *)
Theorem addTask_appends (s : State) (ttl due prio : string) :
  wf s ->
  JsString.trim ttl <> "" ->
  let r := evalST (addTask ttl due prio) s in
  let s' := execST (addTask ttl due prio) s in
  r = Result.mk true None
  /\ collection s'
     = (collection s
        ++ [mkTask (clock (world s) (ticks (world s))) (JsString.trim ttl) false
                   prio due (clock (world s) (S (ticks (world s))))])%list
  /\ length (collection s') = S (length (collection s))
  /\ this s' = this s
  /\ persisted s'
  /\ setItemCalls (world s') = S (setItemCalls (world s)).
Proof.
  intros Hwf Ht r s'. subst r s'.
  destruct (addTask_success s ttl due prio Hwf Ht) as (Hc & _).
  split; [unfold evalST; now rewrite (addTask_run _ _ _ _ Ht)|].
  split; [exact Hc|]. split; [rewrite Hc, length_app; simpl; lia|].
  unfold execST. rewrite (addTask_run _ _ _ _ Ht). cbn [snd].
  split; [reflexivity|]. split; [apply saved_persisted | reflexivity].
Qed.

(** C10: addTask validates the title only.  Whatever the priority and
    the due date are, it succeeds exactly when the trimmed title is not
    empty, and then the new task, the last of the collection, carries both
    strings as they were given. *)
Theorem addTask_validates_title_only (s : State) (ttl due prio : string) :
  let r := evalST (addTask ttl due prio) s in
  let s' := execST (addTask ttl due prio) s in
  Result.success r = JsString.truthy (JsString.trim ttl)
  /\ (wf s -> JsString.trim ttl <> "" ->
      Result.success r = true
      /\ exists t, collection s' = (collection s ++ [t])%list
                   /\ priority t = prio /\ dueDate t = due).
Proof.
  intros r s'. subst r s'. split.
  - destruct (JsString.truthy (JsString.trim ttl)) eqn:E.
    + apply truthy_true in E. unfold evalST. now rewrite (addTask_run _ _ _ _ E).
    + apply truthy_false in E. unfold evalST. now rewrite (addTask_blank _ _ _ _ E).
  - intros Hwf Ht. destruct (addTask_success s ttl due prio Hwf Ht) as (Hc & _).
    split; [unfold evalST; now rewrite (addTask_run _ _ _ _ Ht)|].
    eexists. split; [exact Hc|]. now split.
Qed.

Lemma toggle_toggle t : toggle (toggle t) = t.
Proof. destruct t. unfold toggle; simpl. now rewrite negb_involutive. Qed.

Lemma alter_found {A} (f : A -> A) (l : list A) k x :
  l !! k = Some x -> alter f k l = <[k := f x]> l.
Proof.
  intros H. rewrite list_insert_alter. apply list_alter_ext; [|reflexivity].
  intros y Hy. congruence.
Qed.

Lemma has_id_iff (i : Z) (t : Task) : Is_true (id t =? i) <-> id t = i.
Proof. rewrite Is_true_true. apply Z.eqb_eq. Qed.

Lemma find_first_with_id i a k t :
  list_find (fun t => Is_true (id t =? i)) a = Some (k, t) <-> first_with_id i a k t.
Proof.
  rewrite list_find_Some. unfold first_with_id. rewrite has_id_iff.
  split; intros (H1 & H2 & H3); (split; [exact H1 | split; [exact H2|]]).
  - intros j u Hj Hu Hi. apply (H3 j u Hu Hj). now apply has_id_iff.
  - intros j u Hu Hj Hi. apply (H3 j u Hj Hu). now apply has_id_iff.
Qed.

Lemma first_with_id_exists i a :
  In i (List.map id a) -> exists k t, first_with_id i a k t.
Proof.
  intros H. apply List.in_map_iff in H as (t & Ht & Hin).
  destruct (list_find_elem_of (fun t => Is_true (id t =? i)) a t) as [[k u] Hf].
  - now apply list_elem_of_In.
  - now apply has_id_iff.
  - exists k, u. now apply find_first_with_id.
Qed.

Lemma first_with_id_toggled i a k t :
  first_with_id i a k t -> first_with_id i (<[k := toggle t]> a) k (toggle t).
Proof.
  intros (H1 & H2 & H3). split; [|split].
  - apply list_lookup_insert_eq. eapply lookup_lt_Some, H1.
  - exact H2.
  - intros j u Hj Hu. rewrite list_lookup_insert_ne in Hu by lia. eauto.
Qed.

Lemma toggleTask_first s i k t :
  wf s -> first_with_id i (collection s) k t ->
  collection (execST (toggleTask i) s) = <[k := toggle t]> (collection s)
  /\ this (execST (toggleTask i) s) = this s
  /\ wf (execST (toggleTask i) s).
Proof.
  intros Hwf Hf. unfold execST.
  rewrite (toggleTask_found s i k t) by now apply find_first_with_id.
  cbn [snd]. rewrite collection_written by exact Hwf.
  split; [|split; [reflexivity | now apply wf_written]].
  apply alter_found, Hf.
Qed.

(** C5: for an id present in the collection, toggleTask flips the
    completed flag of the task with that id (the first one, were the id
    there twice; the only one when ids are distinct) and changes nothing
    else: no other field of that task, no other task, not the instance.
    Two calls in a row give back the collection as it was. *)
Theorem toggleTask_flips (s : State) (i : Z) :
  wf s ->
  In i (List.map id (collection s)) ->
  let s1 := execST (toggleTask i) s in
  let s2 := execST (toggleTask i) s1 in
  exists k t,
    first_with_id i (collection s) k t
    /\ collection s1
       = <[k := mkTask (id t) (title t) (negb (completed t)) (priority t)
                       (dueDate t) (dateCreated t)]> (collection s)
    /\ this s1 = this s
    /\ collection s2 = collection s
    /\ this s2 = this s
    /\ (NoDup (List.map id (collection s)) ->
        forall (k' : nat) t', collection s !! k' = Some t' -> id t' = i ->
                              k' = k /\ t' = t).
Proof.
  intros Hwf Hin s1 s2. subst s1 s2.
  destruct (first_with_id_exists _ _ Hin) as (k & t & Hf). exists k, t.
  destruct (toggleTask_first s i k t Hwf Hf) as (H1 & Ht1 & Hwf1).
  assert (Hf1 : first_with_id i (collection (execST (toggleTask i) s)) k (toggle t)).
  { rewrite H1. now apply first_with_id_toggled. }
  destruct (toggleTask_first _ i k _ Hwf1 Hf1) as (H2 & Ht2 & _).
  split; [exact Hf|]. split; [exact H1|]. split; [exact Ht1|]. split; [|split].
  - rewrite H2, H1, toggle_toggle, list_insert_insert_eq.
    apply list_insert_id, Hf.
  - now rewrite Ht2.
  - intros Hnd k' t' Hk' Hi. destruct Hf as (Hk & Hid & _).
    assert (k' = k).
    { eapply NoDup_lookup; [exact Hnd | |].
      - rewrite list_lookup_fmap, Hk'. simpl. now rewrite Hi.
      - rewrite list_lookup_fmap, Hk. simpl. now rewrite Hid. }
    subst k'. split; [reflexivity | congruence].
Qed.

Lemma filter_none_removed i a :
  (forall t, In t a -> id t <> i) ->
  List.filter (fun t => negb (id t =? i)) a = a.
Proof.
  intros H. induction a as [|t a IH]; simpl; [reflexivity|].
  destruct (Z.eqb_spec (id t) i) as [E|_]; simpl.
  - exfalso. apply (H t); [now left | exact E].
  - f_equal. apply IH. intros u Hu. apply H. now right.
Qed.

(** C8: for an id that no task of the collection has, removeTask and
    toggleTask leave the collection as it is (the same tasks, in the same
    number and order) and the filters, sort mode and search query too; yet
    each of them makes one write to the store, after which the store holds
    the full snapshot. *)
Theorem absent_id_noop_persists (s : State) (i : Z) :
  (forall t, In t (collection s) -> id t <> i) ->
  let s1 := execST (removeTask i) s in
  let s2 := execST (toggleTask i) s in
  (collection s1 = collection s
   /\ length (collection s1) = length (collection s)
   /\ filters (this s1) = filters (this s)
   /\ sortBy (this s1) = sortBy (this s)
   /\ searchQuery (this s1) = searchQuery (this s)
   /\ setItemCalls (world s1) = S (setItemCalls (world s))
   /\ localStorage (world s1) !! Storage.STORAGE_KEY
      = Some (JSON.stringify (snapshot s)))
  /\ (collection s2 = collection s
      /\ length (collection s2) = length (collection s)
      /\ this s2 = this s
      /\ setItemCalls (world s2) = S (setItemCalls (world s))
      /\ localStorage (world s2) !! Storage.STORAGE_KEY
         = Some (JSON.stringify (snapshot s))).
Proof.
  intros Habs s1 s2. subst s1 s2. split.
  - unfold execST. rewrite removeTask_run. cbn [snd].
    pose proof (collection_allocated s
                  (List.filter (fun t => negb (id t =? i)) (collection s))) as Hc.
    rewrite (filter_none_removed _ _ Habs) in Hc.
    rewrite (filter_none_removed _ _ Habs).
    split; [exact Hc|]. split; [now rewrite Hc|].
    split; [reflexivity|]. split; [reflexivity|]. split; [reflexivity|].
    split; [reflexivity|].
    pose proof (saved_persisted (retargeted s) (allocated (collection s) (world s)))
      as Hp.
    unfold persisted in Hp. rewrite Hp. unfold snapshot. now rewrite Hc.
  - unfold execST. rewrite toggleTask_absent.
    + cbn [snd]. split; [reflexivity|]. split; [reflexivity|].
      split; [reflexivity|]. split; [reflexivity|].
      apply (saved_persisted (this s) (world s)).
    + apply list_find_None, List.Forall_forall. intros t Ht Hi.
      apply (Habs t Ht). now apply has_id_iff.
Qed.

(** ** Filters *)

Lemma strict_eq_spec p v : strict_eq p v = true <-> p = Some v.
Proof.
  destruct p as [x|]; simpl; [|split; discriminate].
  rewrite String.eqb_eq. split; congruence.
Qed.

Lemma setFilter_priority_run s v :
  setFilter "priority" v s
  = (tt, mkState (priority_toggled v (this s))
           (saved (priority_toggled v (this s)) (world s))).
Proof. reflexivity. Qed.

Lemma setFilter_status_run s v :
  setFilter "status" v s
  = (tt, mkState (status_selected v (this s))
           (saved (status_selected v (this s)) (world s))).
Proof. reflexivity. Qed.

(** C6 (amended): setFilter on the priority kind is toggle-select: a
    value other than the current priority filter becomes the filter, the
    value already selected clears the filter, so that selecting a value
    twice in a row, from a filter that is not that value, leaves the filter
    cleared; from the value itself, the two calls clear and select it again.
    setFilter on the status kind always takes the new value.  Neither
    touches the other filter, the collection, the sort mode or the search
    query, and both write the snapshot to the store. *)
Theorem setFilter_select (s : State) (v : string) :
  let p1 := execST (setFilter "priority" v) s in
  let p2 := execST (setFilter "priority" v) p1 in
  let st := execST (setFilter "status" v) s in
  (Filters.priority (filters (this s)) <> Some v ->
   Filters.priority (filters (this p1)) = Some v
   /\ Filters.priority (filters (this p2)) = None)
  /\ (Filters.priority (filters (this s)) = Some v ->
      Filters.priority (filters (this p1)) = None
      /\ Filters.priority (filters (this p2)) = Some v)
  /\ Filters.status (filters (this p1)) = Filters.status (filters (this s))
  /\ Filters.status (filters (this st)) = v
  /\ Filters.priority (filters (this st)) = Filters.priority (filters (this s))
  /\ (collection p1 = collection s /\ sortBy (this p1) = sortBy (this s)
      /\ searchQuery (this p1) = searchQuery (this s))
  /\ (collection st = collection s /\ sortBy (this st) = sortBy (this s)
      /\ searchQuery (this st) = searchQuery (this s))
  /\ (persisted p1 /\ setItemCalls (world p1) = S (setItemCalls (world s)))
  /\ (persisted p2 /\ setItemCalls (world p2) = S (setItemCalls (world p1)))
  /\ (persisted st /\ setItemCalls (world st) = S (setItemCalls (world s))).
Proof.
  intros p1 p2 st. subst p1 p2 st. unfold execST.
  rewrite !setFilter_priority_run, setFilter_status_run. cbn [snd this].
  split; [|split].
  - intros Hne. cbn.
    destruct (strict_eq (Filters.priority (filters (this s))) v) eqn:E.
    + apply strict_eq_spec in E. contradiction.
    + cbn. now rewrite String.eqb_refl.
  - intros He. cbn. apply strict_eq_spec in He. now rewrite He.
  - repeat split; apply saved_persisted.
Qed.

(** ** The stored snapshot read back *)

Lemma to_Task_of_Task t : JSON.to_Task (JSON.of_Task t) = Some t.
Proof. now destruct t. Qed.

Lemma to_tasks_of_tasks a :
  JSON.to_tasks (JArr (List.map JSON.of_Task a)) = Some a.
Proof.
  unfold JSON.to_tasks. simpl. induction a as [|t a IH]; [reflexivity|].
  cbn [List.map mapM]. rewrite to_Task_of_Task. simpl. now rewrite IH.
Qed.

Lemma to_Filters_of_Filters f : JSON.to_Filters (JSON.of_Filters f) = Some f.
Proof. now destruct f as [st [p|]]. Qed.

(** The constructor, when the store holds a snapshot written by [save]. *)
Lemma newTaskManager_stored w d :
  localStorage w !! Storage.STORAGE_KEY = Some (JSON.stringify d) ->
  newTaskManager w
  = (Some (mkTaskManager (length (arrays w)) (Snapshot.filters d)
                         (reloaded_sortBy (Snapshot.sortBy d)) ""),
     allocated (Snapshot.tasks d) w).
Proof.
  intros H. unfold newTaskManager, Storage.loadData, LocalStorage.getItem, bind, ret.
  rewrite H. cbn -[JSON.to_tasks JSON.to_Filters JSON.of_Filters].
  rewrite to_tasks_of_tasks, to_Filters_of_Filters. unfold reloaded_sortBy.
  now destruct (JsString.truthy (Snapshot.sortBy d)).
Qed.

(** The constructor on an empty store: the defaults. *)
Lemma newTaskManager_empty w :
  localStorage w !! Storage.STORAGE_KEY = None ->
  newTaskManager w
  = (Some (mkTaskManager (length (arrays w)) (Filters.mk "all" None) "custom" ""),
     allocated [] w).
Proof.
  intros H. unfold newTaskManager, Storage.loadData, LocalStorage.getItem, bind, ret.
  now rewrite H.
Qed.

Lemma reloaded_sortBy_equivalent m : sort_equivalent m (reloaded_sortBy m).
Proof.
  intros o o' Ho Ho' a. unfold arranged. rewrite Ho, Ho'. unfold reloaded_sortBy.
  now destruct m.
Qed.

(** C7: after [save], a fresh Task Manager constructed from the store
    has the same task collection (in a new array) and the same filter
    state; its sort mode is the saved one (an empty sort mode is read back
    as custom, which arranges every list in the same way); its search
    query is the empty string, whatever the search query was: the stored
    snapshot has no field for it. *)
Theorem save_then_construct (s : State) :
  let w1 := world (execST save s) in
  let w2 := execST newTaskManager w1 in
  exists o,
    evalST newTaskManager w1 = Some o
    /\ JsArray.contents w2 (tasks o) = collection s
    /\ filters o = filters (this s)
    /\ sortBy o = (if String.eqb (sortBy (this s)) "" then "custom"
                   else sortBy (this s))
    /\ sort_equivalent (sortBy (this s)) (sortBy o)
    /\ searchQuery o = ""
    /\ localStorage w1 !! Storage.STORAGE_KEY
       = Some (JSON.stringify
                 (Snapshot.mk (collection s) (filters (this s)) (sortBy (this s)))).
Proof.
  intros w1 w2. subst w1 w2.
  assert (E : execST save s = mkState (this s) (saved (this s) (world s)))
    by reflexivity.
  rewrite E. cbn [world].
  pose proof (saved_persisted (this s) (world s)) as Hp. unfold persisted in Hp.
  cbn [world] in Hp. unfold evalST, execST.
  rewrite (newTaskManager_stored _ _ Hp). cbn [fst snd].
  eexists. split; [reflexivity|]. cbn [tasks filters sortBy searchQuery].
  split.
  { unfold JsArray.contents, allocated; cbn.
    rewrite lookup_app_r by lia. now rewrite Nat.sub_diag. }
  split; [reflexivity|]. split.
  { unfold snapshot, reloaded_sortBy; cbn. now destruct (sortBy (this s)). }
  split; [apply reloaded_sortBy_equivalent|]. split; [reflexivity | exact Hp].
Qed.

(** ** The collection of a reachable state exists *)

Lemma execST_then_ret {S A} (c : ST S A) (s : S) :
  execST (c ;; ret tt) s = execST c s.
Proof. unfold execST, bind, ret. now destruct (c s). Qed.

Lemma newTaskManager_wf w o :
  evalST newTaskManager w = Some o -> wf (mkState o (execST newTaskManager w)).
Proof.
  unfold evalST, execST, newTaskManager, bind, ret, Storage.loadData,
    LocalStorage.getItem, JsArray.alloc, wf.
  cbn.
  destruct (Json.or_else _ _ JSON.to_tasks) as [ts|]; [|discriminate].
  destruct (Json.or_else _ _ JSON.to_Filters) as [f|]; [|discriminate].
  destruct (Json.or_else _ _ Json.as_str) as [sb|]; [|discriminate].
  cbn. intros [= <-]. cbn. rewrite length_app. simpl. lia.
Qed.

Lemma start_wf w s : start w = Some s -> wf s.
Proof.
  unfold start.
  destruct (evalST newTaskManager (execST Storage.initializeSampleData w))
    as [o|] eqn:E; [|discriminate].
  intros [= <-]. now apply newTaskManager_wf.
Qed.

Lemma setFilter_wf type value s : wf s -> wf (execST (setFilter type value) s).
Proof.
  intros Hwf. unfold setFilter, execST, bind, getThis, setThis, ret.
  destruct (String.eqb type "status"), (String.eqb type "priority"); exact Hwf.
Qed.

Lemma getFilteredTasks_wf s : wf s -> wf (execST getFilteredTasks s).
Proof.
  intros Hwf. destruct (getFilteredTasks_view s) as [Ht Hd].
  unfold wf in *. rewrite Ht. apply derived_le in Hd. lia.
Qed.

Lemma toggleTask_wf i s : wf s -> wf (execST (toggleTask i) s).
Proof.
  intros Hwf.
  destruct (list_find (fun t => Is_true (id t =? i)) (collection s))
    as [[k t]|] eqn:E; unfold execST.
  - rewrite (toggleTask_found _ _ _ _ E). now apply wf_written.
  - rewrite (toggleTask_absent _ _ E). exact Hwf.
Qed.

(** Every operation keeps [this.tasks] an array that exists. *)
Lemma perform_wf o s : wf s -> wf (execST (perform o) s).
Proof.
  intros Hwf. destruct o as [ttl due prio|i|i|query|m|type value|]; cbn [perform].
  - rewrite execST_then_ret.
    destruct (JsString.trim ttl) as [|c r] eqn:E.
    + unfold execST. now rewrite (addTask_blank _ _ _ _ E).
    + apply addTask_success; [exact Hwf|]. rewrite E. discriminate.
  - unfold execST. rewrite removeTask_run. unfold wf; cbn.
    rewrite length_app. simpl. lia.
  - now apply toggleTask_wf.
  - exact Hwf.
  - exact Hwf.
  - now apply setFilter_wf.
  - rewrite execST_then_ret. now apply getFilteredTasks_wf.
Qed.

Lemma reachable_session os s : reachable s -> reachable (session os s).
Proof.
  revert s. induction os as [|o os IH]; intros s Hs; [exact Hs|].
  apply IH. now apply reachable_perform.
Qed.

Lemma reachable_wf s : reachable s -> wf s.
Proof.
  induction 1 as [c s Hs|s s' _ _ Hs|s o _ IH].
  - eapply start_wf, Hs.
  - eapply start_wf, Hs.
  - now apply perform_wf.
Qed.

(** ** Ids *)

Lemma ids_toggled (a : list Task) k t :
  a !! k = Some t -> List.map id (<[k := toggle t]> a) = List.map id a.
Proof.
  intros H. change (List.map id) with (fmap (M := list) id).
  rewrite list_fmap_insert. apply list_insert_id.
  rewrite list_lookup_fmap, H. reflexivity.
Qed.

(** toggleTask does not change the ids of the collection. *)
Lemma toggleTask_ids s i :
  wf s ->
  List.map id (collection (execST (toggleTask i) s)) = List.map id (collection s).
Proof.
  intros Hwf.
  destruct (list_find (fun t => Is_true (id t =? i)) (collection s))
    as [[k t]|] eqn:E.
  - apply find_first_with_id in E.
    destruct (toggleTask_first s i k t Hwf E) as (-> & _).
    apply ids_toggled, E.
  - unfold execST. now rewrite (toggleTask_absent _ _ E).
Qed.

Lemma NoDup_ids_filter (p : Task -> bool) a :
  NoDup (List.map id a) -> NoDup (List.map id (List.filter p a)).
Proof.
  induction a as [|t a IH]; simpl; [trivial|].
  rewrite NoDup_cons. intros [Hn Hd]. destruct (p t); simpl; [|now apply IH].
  apply NoDup_cons. split; [|now apply IH].
  intros Hin. apply Hn. apply list_elem_of_In in Hin. apply list_elem_of_In.
  apply List.in_map_iff in Hin as (u & Hu & Hin). apply List.in_map_iff.
  exists u. split; [exact Hu|]. now apply List.filter_In in Hin.
Qed.

(** removeTask keeps distinct ids distinct. *)
Lemma removeTask_ids s i :
  NoDup (List.map id (collection s)) ->
  NoDup (List.map id (collection (execST (removeTask i) s))).
Proof.
  intros H. unfold execST. rewrite removeTask_run. cbn [snd].
  rewrite collection_allocated. now apply NoDup_ids_filter.
Qed.

(** addTask keeps distinct ids distinct exactly when the clock reading it
    takes as the id is not the id of a task of the collection. *)
Lemma addTask_ids s ttl due prio :
  wf s -> JsString.trim ttl <> "" ->
  NoDup (List.map id (collection s)) ->
  (NoDup (List.map id (collection (execST (addTask ttl due prio) s)))
   <-> ~ In (clock (world s) (ticks (world s))) (List.map id (collection s))).
Proof.
  intros Hwf Ht Hnd.
  destruct (addTask_success s ttl due prio Hwf Ht) as (Hc & _).
  rewrite Hc, List.map_app. simpl.
  rewrite <- list_elem_of_In. split.
  - intros H. apply NoDup_app in H as (_ & H & _). intros Hin.
    apply (H _ Hin). now left.
  - intros H. apply NoDup_app. split; [exact Hnd|]. split.
    + intros x Hx Hx'. apply list_elem_of_singleton in Hx'. now subst x.
    + apply NoDup_singleton.
Qed.

(** C9: the code does not keep ids distinct.  After a first visit, two
    tasks added while the clock reads the same millisecond get the same
    id: a reachable state holds two tasks with one id, and one call of
    removeTask with that id then removes both. *)
Theorem addTask_same_millisecond_duplicate_ids :
  match start (first_visit clock_5000) with
  | Some s0 =>
      let s := session [AddTask "a" "" "medium"; AddTask "b" "" "medium"] s0 in
      reachable s
      /\ List.map id (collection s0) = [1001; 1002]
      /\ List.map id (collection s) = [1001; 1002; 5000; 5000]
      /\ ~ NoDup (List.map id (collection s))
      /\ List.map id (collection (session [RemoveTask 5000] s)) = [1001; 1002]
  | None => False
  end.
Proof.
  destruct (start (first_visit clock_5000)) as [s0|] eqn:E;
    [|vm_compute in E; discriminate].
  assert (Hr : reachable s0) by (eapply reachable_start, E).
  vm_compute in E. injection E as <-.
  split; [apply reachable_session, Hr|].
  split; [reflexivity|]. split; [reflexivity|]. split; [|reflexivity].
  intros H. vm_compute in H.
  apply NoDup_cons in H as [_ H]. apply NoDup_cons in H as [_ H].
  apply NoDup_cons in H as [H _]. apply H. now left.
Qed.

(** ** Examples *)

Lemma wf_example a f sb query : wf (example_state a f sb query).
Proof. unfold wf; simpl. lia. Defined.

Lemma getFilteredTasks_filters_witness :
  Permutation
    (JsArray.contents (world (execST getFilteredTasks mixed))
                      (evalST getFilteredTasks mixed))
    [buy_milk; almond_milk]
  /\ collection (execST getFilteredTasks mixed) = collection mixed.
Proof.
  pose proof (getFilteredTasks_filters mixed (wf_example _ _ _ _)) as H.
  split; [exact (proj1 H) | exact (proj1 (proj2 (proj2 (proj2 H))))].
Defined.

(** C2, as stated, fails: after a first visit and the addition of a
    low, an urgent and a high task, sort mode priority leaves the low task
    before the high one, because the urgent task, which has no rank,
    compares equal to both. *)
Lemma getFilteredTasks_order_counterexample :
  match start (first_visit clock_seconds) with
  | Some s0 =>
      let s := session [AddTask "a" "" "low"; AddTask "b" "" "urgent";
                        AddTask "c" "" "high"; SetSortBy "priority"] s0 in
      let out := JsArray.contents (world (execST getFilteredTasks s))
                                  (evalST getFilteredTasks s) in
      reachable s
      /\ sortBy (this s) = "priority"
      /\ List.map priority out = ["high"; "medium"; "low"; "urgent"; "high"]
      /\ ~ ranked_ascending out
      /\ ~ StronglySorted rank_le out
  | None => False
  end.
Proof.
  destruct (start (first_visit clock_seconds)) as [s0|] eqn:E;
    [|vm_compute in E; discriminate].
  assert (Hr : reachable s0) by (eapply reachable_start, E).
  vm_compute in E. injection E as <-.
  split; [apply reachable_session, Hr|].
  split; [reflexivity|]. split; [reflexivity|].
  match goal with |- ~ ranked_ascending ?l /\ _ =>
    assert (Hn : ~ ranked_ascending l) end.
  { intros H. specialize (H 2%nat 4%nat).
    vm_compute in H.
    specialize (H _ _ 2 0 ltac:(lia) eq_refl eq_refl eq_refl eq_refl).
    now apply H. }
  split; [exact Hn|]. intros H. apply Hn. now apply StronglySorted_ranked.
Qed.

Lemma getFilteredTasks_order_witness :
  JsArray.contents
    (world (execST getFilteredTasks
              (example_state [task_A; task_B] no_filters "dateCreated" "")))
    (evalST getFilteredTasks
            (example_state [task_A; task_B] no_filters "dateCreated" ""))
  = [task_B; task_A]
  /\ JsArray.contents
       (world (execST getFilteredTasks
                 (example_state [task_B; task_A] no_filters "priority" "")))
       (evalST getFilteredTasks
               (example_state [task_B; task_A] no_filters "priority" ""))
     = [task_A; task_B]
  /\ StronglySorted rank_le
       (JsArray.contents
          (world (execST getFilteredTasks
                    (example_state [task_B; task_A] no_filters "priority" "")))
          (evalST getFilteredTasks
                  (example_state [task_B; task_A] no_filters "priority" ""))).
Proof.
  split; [|split].
  - pose proof (getFilteredTasks_order
                  (example_state [task_A; task_B] no_filters "dateCreated" "")) as H.
    cbv zeta in H. destruct H as (_ & _ & _ & _ & _ & H).
    apply (H task_A task_B); [reflexivity | reflexivity | reflexivity | | reflexivity].
    left. reflexivity.
  - pose proof (getFilteredTasks_order
                  (example_state [task_B; task_A] no_filters "priority" "")) as H.
    cbv zeta in H. destruct H as (_ & _ & _ & _ & _ & H).
    apply (H task_A task_B); [reflexivity | reflexivity | reflexivity | | reflexivity].
    right. reflexivity.
  - pose proof (getFilteredTasks_order
                  (example_state [task_B; task_A] no_filters "priority" "")) as H.
    cbv zeta in H. destruct H as (_ & _ & H & _).
    apply H; [reflexivity|].
    intros t [<- | [<- | []]]; unfold known_priority; simpl; auto.
Defined.

Lemma addTask_blank_title_witness :
  Result.success (evalST (addTask "  " "" "medium")
                         (example_state [] no_filters "custom" "")) = false
  /\ execST (addTask "  " "" "medium") (example_state [] no_filters "custom" "")
     = example_state [] no_filters "custom" "".
Proof.
  pose proof (addTask_blank_title (example_state [] no_filters "custom" "")
                "  " "" "medium" (or_introl eq_refl)) as H.
  split; [exact (proj1 H) | exact (proj1 (proj2 (proj2 H)))].
Defined.

(** Adding [{title: "Buy milk", dueDate: "", priority: "medium"}] to an
    empty list. *)
Lemma addTask_appends_witness :
  let s := example_state [] no_filters "custom" "" in
  let s' := execST (addTask "Buy milk" "" "medium") s in
  evalST (addTask "Buy milk" "" "medium") s = Result.mk true None
  /\ collection s'
     = [mkTask 1700000000000 "Buy milk" false "medium" "" 1700000000001]
  /\ length (collection s') = 1%nat.
Proof.
  assert (Ht : JsString.trim "Buy milk" <> "") by discriminate.
  pose proof (addTask_appends (example_state [] no_filters "custom" "")
                "Buy milk" "" "medium" (wf_example _ _ _ _) Ht) as H.
  split; [exact (proj1 H)|].
  split; [exact (proj1 (proj2 H)) | exact (proj1 (proj2 (proj2 H)))].
Defined.

Lemma toggleTask_flips_witness :
  let s := example_state [task_A; task_B] no_filters "custom" "" in
  exists k t,
    first_with_id 20 (collection s) k t
    /\ collection (execST (toggleTask 20) s)
       = <[k := mkTask (id t) (title t) (negb (completed t)) (priority t)
                       (dueDate t) (dateCreated t)]> (collection s)
    /\ collection (execST (toggleTask 20) (execST (toggleTask 20) s))
       = collection s.
Proof.
  assert (Hin : In 20 (List.map id
                         (collection (example_state [task_A; task_B] no_filters
                                                    "custom" ""))))
    by (right; left; reflexivity).
  destruct (toggleTask_flips (example_state [task_A; task_B] no_filters "custom" "")
              20 (wf_example _ _ _ _) Hin) as (k & t & H1 & H2 & _ & H3 & _).
  exists k, t. split; [exact H1 | split; [exact H2 | exact H3]].
Defined.

Lemma setFilter_select_witness :
  let s := example_state [task_A] no_filters "custom" "" in
  Filters.priority (filters (this (execST (setFilter "priority" "high") s)))
  = Some "high"
  /\ Filters.priority
       (filters (this (execST (setFilter "priority" "high")
                         (execST (setFilter "priority" "high") s))))
     = None.
Proof.
  assert (Hne : Filters.priority
                  (filters (this (example_state [task_A] no_filters "custom" "")))
                <> Some "high") by discriminate.
  exact (proj1 (setFilter_select (example_state [task_A] no_filters "custom" "")
                  "high") Hne).
Defined.

(** C6, as stated for every filter state, fails: when the priority filter
    is already high (after a first visit and one setFilter), setting it to
    high twice in a row leaves it high, not cleared. *)
Lemma setFilter_select_counterexample :
  match start (first_visit clock_seconds) with
  | Some s0 =>
      let s := session [SetFilter "priority" "high"] s0 in
      let s2 := execST (setFilter "priority" "high")
                       (execST (setFilter "priority" "high") s) in
      reachable s
      /\ Filters.priority (filters (this s)) = Some "high"
      /\ Filters.priority (filters (this s2)) = Some "high"
      /\ Filters.priority (filters (this s2)) <> None
  | None => False
  end.
Proof.
  destruct (start (first_visit clock_seconds)) as [s0|] eqn:E;
    [|vm_compute in E; discriminate].
  assert (Hr : reachable s0) by (eapply reachable_start, E).
  vm_compute in E. injection E as <-.
  split; [apply reachable_session, Hr|].
  split; [reflexivity|]. split; [reflexivity | discriminate].
Qed.

Lemma absent_id_noop_persists_witness :
  let s := example_state [task_A; task_B] no_filters "custom" "" in
  collection (execST (removeTask 30) s) = collection s
  /\ setItemCalls (world (execST (removeTask 30) s)) = 1%nat
  /\ collection (execST (toggleTask 30) s) = collection s
  /\ setItemCalls (world (execST (toggleTask 30) s)) = 1%nat.
Proof.
  assert (Habs : forall t,
             In t (collection (example_state [task_A; task_B] no_filters "custom" ""))
             -> id t <> 30).
  { intros t [<- | [<- | []]]; discriminate. }
  pose proof (absent_id_noop_persists
                (example_state [task_A; task_B] no_filters "custom" "") 30 Habs) as H.
  cbv zeta in H. destruct H as ((H1 & _ & _ & _ & _ & H2 & _) & (H3 & _ & _ & H4 & _)).
  split; [exact H1 | split; [exact H2 | split; [exact H3 | exact H4]]].
Defined.

Lemma addTask_validates_title_only_witness :
  let s := example_state [] no_filters "custom" "" in
  exists t,
    collection (execST (addTask "x" "not a date" "urgent") s) = [t]
    /\ priority t = "urgent" /\ dueDate t = "not a date".
Proof.
  assert (Ht : JsString.trim "x" <> "") by discriminate.
  destruct (proj2 (addTask_validates_title_only
                     (example_state [] no_filters "custom" "")
                     "x" "not a date" "urgent") (wf_example _ _ _ _) Ht)
    as (_ & t & H).
  exists t. exact H.
Defined.

(** * Further properties of the code *)

(** ** The Storage module and the start *)

Lemma loadData_run w :
  Storage.loadData w
  = (match localStorage w !! Storage.STORAGE_KEY with
     | Some text => text
     | None => JNull
     end, w).
Proof. reflexivity. Qed.

Lemma initializeSampleData_run w :
  Storage.initializeSampleData w
  = (tt, if Json.truthy (evalST Storage.loadData w) then w else seeded w).
Proof.
  unfold Storage.initializeSampleData, bind, evalST. rewrite loadData_run.
  cbn [fst]. destruct (Json.truthy _); [now destruct w | reflexivity].
Qed.

Lemma stringify_truthy d : Json.truthy (JSON.stringify d) = true.
Proof. reflexivity. Qed.

Lemma loadData_seeded w :
  evalST Storage.loadData (seeded w)
  = JSON.stringify (Snapshot.mk (sampleTasks w) (Filters.mk "all" None) "custom").
Proof.
  unfold evalST. rewrite loadData_run. cbn [fst seeded localStorage].
  now rewrite lookup_insert_eq.
Qed.

(** X1: a saved snapshot is what [loadData] returns, whatever was stored
    before; it is truthy, each of its three fields reads back as the value
    that was saved, reading changes nothing, the last of two writes wins,
    and the entries under other keys are not touched.  Without an entry
    [loadData] returns [null]. *)
Theorem saveData_loadData (w : World) (d d' : Snapshot.t) :
  let w1 := execST (Storage.saveData d) w in
  let j := evalST Storage.loadData w1 in
  j = JSON.stringify d
  /\ Json.truthy j = true
  /\ Json.prop "tasks" j ≫= JSON.to_tasks = Some (Snapshot.tasks d)
  /\ Json.prop "filters" j ≫= JSON.to_Filters = Some (Snapshot.filters d)
  /\ Json.prop "sortBy" j ≫= Json.as_str = Some (Snapshot.sortBy d)
  /\ execST Storage.loadData w1 = w1
  /\ evalST Storage.loadData (execST (Storage.saveData d') w1) = JSON.stringify d'
  /\ (forall k, k <> Storage.STORAGE_KEY ->
                localStorage w1 !! k = localStorage w !! k)
  /\ setItemCalls w1 = S (setItemCalls w)
  /\ (localStorage w !! Storage.STORAGE_KEY = None ->
      evalST Storage.loadData w = JNull).
Proof.
  intros w1 j. subst w1 j.
  assert (Hj : evalST Storage.loadData (execST (Storage.saveData d) w)
               = JSON.stringify d).
  { unfold evalST. rewrite loadData_run. cbn. now rewrite lookup_insert_eq. }
  rewrite Hj. split; [reflexivity|]. split; [reflexivity|].
  split; [cbn -[JSON.to_tasks]; apply to_tasks_of_tasks|].
  split; [cbn -[JSON.to_Filters JSON.of_Filters]; apply to_Filters_of_Filters|].
  split; [reflexivity|]. split; [reflexivity|]. split.
  { unfold evalST. rewrite loadData_run. cbn. now rewrite lookup_insert_eq. }
  split.
  { intros k Hk. cbn. now rewrite lookup_insert_ne. }
  split; [reflexivity|].
  intros H. unfold evalST. rewrite loadData_run. now rewrite H.
Qed.

Lemma saveData_loadData_witness :
  evalST Storage.loadData (first_visit clock_seconds) = JNull.
Proof.
  exact (proj2 (proj2 (proj2 (proj2 (proj2 (proj2 (proj2 (proj2 (proj2
           (saveData_loadData (first_visit clock_seconds)
              (Snapshot.mk [] no_filters "custom")
              (Snapshot.mk [] no_filters "custom")))))))))) eq_refl).
Defined.

Lemma start_no_data w :
  no_data w ->
  start w
  = Some (mkState (mkTaskManager (length (arrays w)) (Filters.mk "all" None)
                                 "custom" "")
                  (allocated (sampleTasks w) (seeded w))).
Proof.
  intros H.
  assert (E : execST Storage.initializeSampleData w = seeded w).
  { unfold execST. rewrite initializeSampleData_run. unfold no_data in H.
    now rewrite H. }
  unfold start. rewrite E.
  assert (Hs : localStorage (seeded w) !! Storage.STORAGE_KEY
               = Some (JSON.stringify
                         (Snapshot.mk (sampleTasks w) (Filters.mk "all" None)
                                      "custom"))).
  { cbn [seeded localStorage]. apply lookup_insert_eq. }
  cbv zeta. unfold evalST, execST. rewrite (newTaskManager_stored _ _ Hs).
  reflexivity.
Qed.

Lemma start_data w d :
  localStorage w !! Storage.STORAGE_KEY = Some (JSON.stringify d) ->
  start w
  = Some (mkState (mkTaskManager (length (arrays w)) (Snapshot.filters d)
                                 (reloaded_sortBy (Snapshot.sortBy d)) "")
                  (allocated (Snapshot.tasks d) w)).
Proof.
  intros H.
  assert (E : execST Storage.initializeSampleData w = w).
  { unfold execST. rewrite initializeSampleData_run. unfold evalST.
    rewrite loadData_run, H. cbn [fst snd]. now rewrite stringify_truthy. }
  unfold start. rewrite E.
  cbv zeta. unfold evalST, execST. rewrite (newTaskManager_stored _ _ H).
  reflexivity.
Qed.

(** X2: on a store without data (no entry, or a falsy one such as
    [null]) the start of the application gives a manager with exactly the
    two sample tasks, built from four readings of the clock, the filter
    all/none, the sort mode custom and an empty search query, and has
    written that snapshot with one call of setItem. *)
Theorem start_first_run (w : World) :
  no_data w ->
  exists s0,
    start w = Some s0
    /\ collection s0 = sampleTasks w
    /\ length (collection s0) = 2%nat
    /\ List.map completed (collection s0) = [false; false]
    /\ List.map priority (collection s0) = ["high"; "medium"]
    /\ filters (this s0) = Filters.mk "all" None
    /\ sortBy (this s0) = "custom"
    /\ searchQuery (this s0) = ""
    /\ persisted s0
    /\ setItemCalls (world s0) = S (setItemCalls w)
    /\ ticks (world s0) = (4 + ticks w)%nat
    /\ wf s0.
Proof.
  intros H. eexists. split; [apply (start_no_data _ H)|].
  assert (Hc : collection
                 (mkState (mkTaskManager (length (arrays w)) (Filters.mk "all" None)
                                         "custom" "")
                          (allocated (sampleTasks w) (seeded w)))
               = sampleTasks w).
  { unfold collection, JsArray.contents. cbn.
    rewrite lookup_app_r by lia. now rewrite Nat.sub_diag. }
  split; [exact Hc|]. rewrite Hc.
  split; [reflexivity|]. split; [reflexivity|]. split; [reflexivity|].
  split; [reflexivity|]. split; [reflexivity|]. split; [reflexivity|].
  split.
  { unfold persisted, snapshot. rewrite Hc. cbn. apply lookup_insert_eq. }
  split; [reflexivity|]. split; [reflexivity|].
  unfold wf. cbn. rewrite length_app. simpl. lia.
Qed.

Lemma no_data_first_visit c : no_data (first_visit c).
Proof. reflexivity. Defined.

Lemma start_first_run_witness :
  exists s0,
    start (first_visit clock_seconds) = Some s0
    /\ List.map id (collection s0) = [1001; 3002]
    /\ List.map dateCreated (collection s0) = [2000; 4001].
Proof.
  destruct (start_first_run (first_visit clock_seconds) (no_data_first_visit _))
    as (s0 & Hs & Hc & _).
  exists s0. split; [exact Hs|]. rewrite Hc. split; reflexivity.
Defined.

(** X3: [initializeSampleData] never overwrites stored data: when the
    stored value is truthy it changes nothing (no write, no reading of the
    clock), otherwise it stores the sample data; afterwards the store holds
    data, so that a second call changes nothing. *)
Theorem initializeSampleData_keeps_data (w : World) :
  let w1 := execST Storage.initializeSampleData w in
  w1 = (if Json.truthy (evalST Storage.loadData w) then w else seeded w)
  /\ Json.truthy (evalST Storage.loadData w1) = true
  /\ execST Storage.initializeSampleData w1 = w1
  /\ (forall d, localStorage w !! Storage.STORAGE_KEY = Some (JSON.stringify d) ->
                w1 = w).
Proof.
  intros w1. subst w1.
  assert (E : execST Storage.initializeSampleData w
              = if Json.truthy (evalST Storage.loadData w) then w else seeded w).
  { unfold execST. now rewrite initializeSampleData_run. }
  assert (Ht : Json.truthy (evalST Storage.loadData
                              (execST Storage.initializeSampleData w)) = true).
  { rewrite E. destruct (Json.truthy (evalST Storage.loadData w)) eqn:T;
      [exact T | now rewrite loadData_seeded]. }
  split; [exact E|]. split; [exact Ht|]. split.
  - unfold execST at 1. rewrite initializeSampleData_run. now rewrite Ht.
  - intros d Hd. rewrite E. unfold evalST. rewrite loadData_run, Hd. reflexivity.
Qed.

Lemma initializeSampleData_keeps_data_witness :
  execST Storage.initializeSampleData
         (execST (Storage.saveData (Snapshot.mk [task_A] no_filters "priority"))
                 (first_visit clock_seconds))
  = execST (Storage.saveData (Snapshot.mk [task_A] no_filters "priority"))
           (first_visit clock_seconds).
Proof.
  apply (proj2 (proj2 (proj2 (initializeSampleData_keeps_data _)))
           (Snapshot.mk [task_A] no_filters "priority")).
  reflexivity.
Defined.

(** X4: the ids of the two sample tasks are the first reading of the
    clock plus 1 and the third reading plus 2.  They differ when the clock
    has not gone back between the two readings, and they are one and the
    same id when it has gone back by exactly one millisecond. *)
Theorem sample_ids (w : World) (s0 : State) :
  no_data w ->
  start w = Some s0 ->
  ids s0 = [clock w (ticks w) + 1; clock w (S (S (ticks w))) + 2]
  /\ (clock w (ticks w) <= clock w (S (S (ticks w))) -> NoDup (ids s0))
  /\ (clock w (S (S (ticks w))) = clock w (ticks w) - 1 -> ~ NoDup (ids s0)).
Proof.
  intros H Hs. rewrite (start_no_data _ H) in Hs. injection Hs as <-.
  assert (Hi : ids (mkState (mkTaskManager (length (arrays w))
                                           (Filters.mk "all" None) "custom" "")
                            (allocated (sampleTasks w) (seeded w)))
               = [clock w (ticks w) + 1; clock w (S (S (ticks w))) + 2]).
  { unfold ids, collection, JsArray.contents. cbn.
    rewrite lookup_app_r by lia. now rewrite Nat.sub_diag. }
  rewrite Hi. split; [reflexivity|]. split.
  - intros Hle. apply NoDup_cons. split; [|apply NoDup_singleton].
    intros Hin. apply list_elem_of_singleton in Hin. lia.
  - intros He Hnd. apply NoDup_cons in Hnd as [Hn _]. apply Hn.
    apply list_elem_of_singleton. lia.
Qed.

Lemma sample_ids_witness :
  exists s0, start (first_visit clock_seconds) = Some s0 /\ NoDup (ids s0).
Proof.
  eexists. split; [apply (start_no_data _ (no_data_first_visit clock_seconds))|].
  apply (sample_ids (first_visit clock_seconds) _ (no_data_first_visit _)
           (start_no_data _ (no_data_first_visit clock_seconds))).
  vm_compute. discriminate.
Defined.

(** X5: the constructor falls back field by field: a field of the
    stored data that is missing or falsy gives the empty collection, the
    filter all/none, the sort mode custom.  With no usable field at all (no
    entry, [null], a stored value that is no object) the new manager is the
    default one.  The search query is always empty, the collection is a new
    array, and the constructor writes nothing and reads no clock. *)
Theorem newTaskManager_defaults (w : World) :
  let data := evalST Storage.loadData w in
  (falsy (Json.prop "tasks" data) -> falsy (Json.prop "filters" data) ->
   falsy (Json.prop "sortBy" data) ->
   newTaskManager w
   = (Some (mkTaskManager (length (arrays w)) (Filters.mk "all" None) "custom" ""),
      allocated [] w))
  /\ (forall o, evalST newTaskManager w = Some o ->
        let w' := execST newTaskManager w in
        searchQuery o = ""
        /\ tasks o = length (arrays w)
        /\ (falsy (Json.prop "tasks" data) -> JsArray.contents w' (tasks o) = [])
        /\ (falsy (Json.prop "filters" data) -> filters o = Filters.mk "all" None)
        /\ (falsy (Json.prop "sortBy" data) -> sortBy o = "custom")
        /\ localStorage w' = localStorage w
        /\ setItemCalls w' = setItemCalls w
        /\ ticks w' = ticks w).
Proof.
  intros data. subst data.
  assert (Hor : forall A (v : option json) (d : A) k,
             falsy v -> Json.or_else v d k = d).
  { intros A [j|] d k H; simpl in *; [now rewrite H | reflexivity]. }
  split.
  - intros Ht Hf Hs. unfold newTaskManager, bind. unfold evalST in *.
    rewrite loadData_run in *. cbn [fst] in *.
    rewrite (Hor _ _ _ _ Ht), (Hor _ _ _ _ Hf), (Hor _ _ _ _ Hs). reflexivity.
  - intros o. unfold evalST, execST, newTaskManager, bind.
    rewrite loadData_run. cbn [fst].
    set (data := match localStorage w !! Storage.STORAGE_KEY with
                 | Some text => text
                 | None => JNull
                 end).
    destruct (Json.or_else (Json.prop "tasks" data) (Some []) JSON.to_tasks)
      as [ts|] eqn:Ets; [|discriminate].
    destruct (Json.or_else (Json.prop "filters" data)
                (Some (Filters.mk "all" None)) JSON.to_Filters)
      as [f|] eqn:Ef; [|discriminate].
    destruct (Json.or_else (Json.prop "sortBy" data) (Some "custom") Json.as_str)
      as [sb|] eqn:Es; [|discriminate].
    cbn. intros [= <-]. cbn.
    split; [reflexivity|]. split; [reflexivity|]. split.
    { intros H. rewrite (Hor _ _ _ _ H) in Ets. injection Ets as <-.
      unfold JsArray.contents. cbn. rewrite lookup_app_r by lia.
      now rewrite Nat.sub_diag. }
    split; [intros H; rewrite (Hor _ _ _ _ H) in Ef; congruence|].
    split; [intros H; rewrite (Hor _ _ _ _ H) in Es; congruence|].
    now split.
Qed.

Lemma newTaskManager_defaults_witness :
  newTaskManager (first_visit clock_seconds)
  = (Some (mkTaskManager 0%nat (Filters.mk "all" None) "custom" ""),
     allocated [] (first_visit clock_seconds)).
Proof.
  apply (proj1 (newTaskManager_defaults (first_visit clock_seconds))); exact I.
Defined.

(** ** What holds in every reachable state *)

Lemma trimEnd_trimEnd s : JsString.trimEnd (JsString.trimEnd s) = JsString.trimEnd s.
Proof.
  induction s as [|c s IH]; [reflexivity|]. cbn [JsString.trimEnd].
  destruct (JsString.trimEnd s) as [|c' r] eqn:E.
  - destruct (JsString.isWhiteSpace c) eqn:Hc; [reflexivity|].
    cbn. now rewrite Hc.
  - cbn [JsString.trimEnd]. cbn [JsString.trimEnd] in IH.
    destruct (match JsString.trimEnd r with
              | "" => if JsString.isWhiteSpace c' then "" else String c' ""
              | String a s0 => String c' (String a s0)
              end) eqn:E'; [discriminate IH|]. now rewrite IH.
Qed.

Lemma trimStart_fixed c r :
  JsString.isWhiteSpace c = false -> JsString.trimStart (String c r) = String c r.
Proof. intros H. cbn. now rewrite H. Qed.

Lemma trimEnd_keeps_head c r :
  JsString.isWhiteSpace c = false ->
  exists r', JsString.trimEnd (String c r) = String c r'.
Proof.
  intros H. cbn. destruct (JsString.trimEnd r); [rewrite H|]; eauto.
Qed.

(** Trimming a trimmed string changes nothing. *)
Lemma trim_trim s : JsString.trim (JsString.trim s) = JsString.trim s.
Proof.
  unfold JsString.trim.
  destruct (JsString.trimStart s) as [|c r] eqn:E; [reflexivity|].
  pose proof (trimStart_head _ _ _ E) as Hc.
  destruct (trimEnd_keeps_head c r Hc) as [r' Hr].
  rewrite Hr, (trimStart_fixed _ _ Hc), <- Hr.
  apply trimEnd_trimEnd.
Qed.

Lemma persisted_in_sync s : persisted s -> in_sync s.
Proof. intros H. exists (sortBy (this s)). split; [exact H | now left]. Qed.

Lemma setFilter_run type value s :
  exists o, execST (setFilter type value) s = mkState o (saved o (world s))
            /\ tasks o = tasks (this s) /\ sortBy o = sortBy (this s)
            /\ searchQuery o = searchQuery (this s)
            /\ (String.eqb type "status" = false ->
                String.eqb type "priority" = false -> o = this s).
Proof.
  unfold setFilter, execST, bind, getThis, setThis, ret.
  destruct (String.eqb type "status") eqn:E1, (String.eqb type "priority") eqn:E2;
    eexists; (split; [reflexivity|]); repeat split; try discriminate;
    intros _ _; now destruct s as [[] ?].
Qed.

(** An operation that calls [save] leaves the snapshot in the store, with
    one call of setItem. *)
Lemma perform_writes o s :
  writes o = true ->
  persisted (execST (perform o) s)
  /\ setItemCalls (world (execST (perform o) s)) = S (setItemCalls (world s)).
Proof.
  destruct o as [ttl due prio|i|i|query|m|type value|]; cbn [writes perform];
    try discriminate; intros H.
  - rewrite execST_then_ret. apply truthy_true in H. unfold execST.
    rewrite (addTask_run _ _ _ _ H). cbn [snd].
    split; [apply saved_persisted | reflexivity].
  - unfold execST. rewrite removeTask_run. cbn [snd].
    split; [apply saved_persisted | reflexivity].
  - destruct (list_find (fun t => Is_true (id t =? i)) (collection s))
      as [[k t]|] eqn:E; unfold execST.
    + rewrite (toggleTask_found _ _ _ _ E). cbn [snd].
      split; [apply saved_persisted | reflexivity].
    + rewrite (toggleTask_absent _ _ E). cbn [snd].
      split; [apply saved_persisted | reflexivity].
  - split; [apply (saved_persisted
                     (mkTaskManager (tasks (this s)) (filters (this s)) m
                                    (searchQuery (this s))) (world s))
           | reflexivity].
  - destruct (setFilter_run type value s) as (o & -> & _).
    split; [apply saved_persisted | reflexivity].
Qed.

(** The other operations leave the store, the filters and the sort mode
    as they are, and the collection too. *)
Lemma perform_reads o s :
  writes o = false ->
  let s' := execST (perform o) s in
  localStorage (world s') = localStorage (world s)
  /\ setItemCalls (world s') = setItemCalls (world s)
  /\ filters (this s') = filters (this s)
  /\ sortBy (this s') = sortBy (this s)
  /\ (wf s -> collection s' = collection s).
Proof.
  destruct o as [ttl due prio|i|i|query|m|type value|]; cbn [writes perform];
    try discriminate; intros H; cbv zeta.
  - rewrite execST_then_ret. apply truthy_false in H. unfold execST.
    rewrite (addTask_blank _ _ _ _ H). now repeat split.
  - now repeat split.
  - rewrite execST_then_ret.
    destruct (getFilteredTasks_frame s) as (Ht & Hf & Hs & Hc & _).
    cbv zeta in *. rewrite Ht. repeat split; try assumption.
    intros Hwf. unfold collection. rewrite Ht. now apply Hf.
Qed.

Lemma perform_in_sync o s :
  wf s -> in_sync s -> in_sync (execST (perform o) s).
Proof.
  intros Hwf (m & Hm & Hs). destruct (writes o) eqn:E.
  - apply persisted_in_sync, perform_writes, E.
  - destruct (perform_reads o s E) as (Hl & _ & Hf & Hsb & Hc).
    exists m. rewrite Hl, Hf, Hsb, (Hc Hwf). now split.
Qed.

Lemma collection_start_data w d :
  collection (mkState (mkTaskManager (length (arrays w)) (Snapshot.filters d)
                                     (reloaded_sortBy (Snapshot.sortBy d)) "")
                      (allocated (Snapshot.tasks d) w))
  = Snapshot.tasks d.
Proof.
  unfold collection, JsArray.contents. cbn.
  rewrite lookup_app_r by lia. now rewrite Nat.sub_diag.
Qed.

(** A reload in a state whose store is in step with it. *)
Lemma start_in_sync s :
  in_sync s ->
  exists s',
    start (world s) = Some s'
    /\ collection s' = collection s
    /\ filters (this s') = filters (this s)
    /\ sortBy (this s') = reloaded_sortBy (sortBy (this s))
    /\ searchQuery (this s') = ""
    /\ localStorage (world s') = localStorage (world s)
    /\ setItemCalls (world s') = setItemCalls (world s)
    /\ ticks (world s') = ticks (world s)
    /\ in_sync s'.
Proof.
  intros (m & Hm & Hs).
  pose proof (start_data _ _ Hm) as Hst.
  pose proof (collection_start_data (world s)
                (Snapshot.mk (collection s) (filters (this s)) m)) as Hc.
  cbn [Snapshot.tasks Snapshot.filters Snapshot.sortBy] in Hst, Hc.
  set (s' := mkState (mkTaskManager (length (arrays (world s))) (filters (this s))
                                    (reloaded_sortBy m) "")
                     (allocated (collection s) (world s))) in *.
  exists s'. split; [exact Hst|]. split; [exact Hc|].
  split; [reflexivity|]. split.
  { cbn. destruct Hs as [->|[-> ->]]; reflexivity. }
  split; [reflexivity|]. split; [reflexivity|]. split; [reflexivity|].
  split; [reflexivity|].
  exists m. rewrite Hc. split; [exact Hm|]. cbn. destruct m; [now right | now left].
Qed.

Lemma titled_newTask w ttl due prio :
  JsString.trim ttl <> "" -> titled (newTask w ttl due prio).
Proof. intros H. split; [exact H | apply trim_trim]. Qed.

Lemma perform_titled o s :
  wf s -> Forall titled (collection s) ->
  Forall titled (collection (execST (perform o) s)).
Proof.
  intros Hwf Ht. destruct (writes o) eqn:E.
  - destruct o as [ttl due prio|i|i|query|m|type value|]; cbn [writes perform] in *;
      try discriminate.
    + rewrite execST_then_ret. apply truthy_true in E.
      destruct (addTask_success s ttl due prio Hwf E) as (-> & _).
      apply Forall_app. split; [exact Ht|].
      constructor; [now apply titled_newTask | constructor].
    + unfold execST. rewrite removeTask_run. cbn [snd].
      rewrite collection_allocated. rewrite List.Forall_forall in *.
      intros t Hin. apply List.filter_In in Hin. now apply Ht.
    + destruct (list_find (fun t => Is_true (id t =? i)) (collection s))
        as [[k t]|] eqn:F.
      * apply find_first_with_id in F.
        destruct (toggleTask_first s i k t Hwf F) as (-> & _).
        apply Forall_insert; [exact Ht|].
        destruct F as (Hk & _). rewrite List.Forall_forall in Ht.
        apply (Ht t). apply list_elem_of_In. eapply list_elem_of_lookup_2, Hk.
      * unfold execST. now rewrite (toggleTask_absent _ _ F).
    + exact Ht.
    + destruct (setFilter_run type value s) as (o & -> & Ho & _).
      unfold collection. cbn. rewrite Ho. exact Ht.
  - destruct (perform_reads o s E) as (_ & _ & _ & _ & Hc). now rewrite (Hc Hwf).
Qed.

(** The state after the start on a store without data. *)
Lemma first_state_facts w :
  collection (mkState (mkTaskManager (length (arrays w)) (Filters.mk "all" None)
                                     "custom" "")
                      (allocated (sampleTasks w) (seeded w)))
  = sampleTasks w
  /\ persisted (mkState (mkTaskManager (length (arrays w)) (Filters.mk "all" None)
                                       "custom" "")
                        (allocated (sampleTasks w) (seeded w)))
  /\ wf (mkState (mkTaskManager (length (arrays w)) (Filters.mk "all" None)
                                "custom" "")
                 (allocated (sampleTasks w) (seeded w))).
Proof.
  assert (Hc : collection
                 (mkState (mkTaskManager (length (arrays w)) (Filters.mk "all" None)
                                         "custom" "")
                          (allocated (sampleTasks w) (seeded w)))
               = sampleTasks w).
  { unfold collection, JsArray.contents. cbn.
    rewrite lookup_app_r by lia. now rewrite Nat.sub_diag. }
  split; [exact Hc|]. split.
  - unfold persisted, snapshot. rewrite Hc. cbn. apply lookup_insert_eq.
  - unfold wf. cbn. rewrite length_app. simpl. lia.
Qed.

(** In every reachable state the collection exists, the store is in step
    with the state, and every title is as [addTask] stores titles. *)
Lemma reachable_invariant s :
  reachable s -> wf s /\ in_sync s /\ Forall titled (collection s).
Proof.
  induction 1 as [c s Hs|s s' Hr (Hwf & Hi & Ht) Hs|s o Hr (Hwf & Hi & Ht)].
  - rewrite (start_no_data _ (no_data_first_visit c)) in Hs. injection Hs as <-.
    destruct (first_state_facts (first_visit c)) as (Hc & Hp & Hwf).
    split; [exact Hwf|]. split; [now apply persisted_in_sync|].
    replace (collection _) with (sampleTasks (first_visit c))
      by (symmetry; exact Hc).
    repeat constructor; discriminate.
  - destruct (start_in_sync s Hi) as (s2 & Hs2 & Hc & _ & _ & _ & _ & _ & _ & Hi2).
    rewrite Hs in Hs2. injection Hs2 as <-.
    split; [eapply start_wf, Hs|]. split; [exact Hi2 | now rewrite Hc].
  - split; [now apply perform_wf|].
    split; [now apply perform_in_sync | now apply perform_titled].
Qed.

(** X6: persistence is never bypassed.  In every state that a session
    reaches (a first visit, then any operations and reloads) the store
    holds exactly the collection and the filters of the manager, and its
    sort mode (a stored empty sort mode standing for the mode custom that
    a reload made of it). *)
Theorem reachable_in_sync (s : State) : reachable s -> in_sync s.
Proof. intros H. apply reachable_invariant, H. Qed.

Lemma reachable_in_sync_witness :
  exists s0, start (first_visit clock_seconds) = Some s0
             /\ in_sync (session [AddTask "a" "" "low"; ToggleTask 5000;
                                  SetSearchQuery "a"; RemoveTask 1001] s0).
Proof.
  eexists. split; [apply (start_no_data _ (no_data_first_visit clock_seconds))|].
  apply reachable_in_sync, reachable_session.
  apply (reachable_start clock_seconds).
  apply (start_no_data _ (no_data_first_visit clock_seconds)).
Defined.

(** X7: a reload at any moment loses nothing but the search query.  From
    every reachable state the start of the application succeeds and gives a
    manager with the same collection, the same filters and the same sort
    mode (custom for an empty one) and an empty search query; it writes
    nothing to the store and reads no clock. *)
Theorem reload_keeps_state (s : State) :
  reachable s ->
  exists s',
    start (world s) = Some s'
    /\ collection s' = collection s
    /\ filters (this s') = filters (this s)
    /\ sortBy (this s') = reloaded_sortBy (sortBy (this s))
    /\ sort_equivalent (sortBy (this s)) (sortBy (this s'))
    /\ searchQuery (this s') = ""
    /\ localStorage (world s') = localStorage (world s)
    /\ setItemCalls (world s') = setItemCalls (world s)
    /\ ticks (world s') = ticks (world s).
Proof.
  intros H. destruct (reachable_invariant s H) as (_ & Hi & _).
  destruct (start_in_sync s Hi) as (s' & Hs & Hc & Hf & Hsb & Hq & Hl & Hn & Ht & _).
  exists s'. rewrite Hsb. repeat split; try assumption.
  apply reloaded_sortBy_equivalent.
Qed.

Lemma reload_keeps_state_witness :
  exists s0 s',
    start (first_visit clock_seconds) = Some s0
    /\ start (world (session [AddTask "a" "" "low"; SetFilter "priority" "low";
                              SetSortBy "dateCreated"; SetSearchQuery "x"] s0))
       = Some s'
    /\ List.map title (collection s')
       = ["Welcome to your task list!"; "Double-click a task to edit"; "a"]
    /\ filters (this s') = Filters.mk "all" (Some "low")
    /\ sortBy (this s') = "dateCreated"
    /\ searchQuery (this s') = "".
Proof.
  eexists.
  destruct (reload_keeps_state
              (session [AddTask "a" "" "low"; SetFilter "priority" "low";
                        SetSortBy "dateCreated"; SetSearchQuery "x"]
                 (mkState (mkTaskManager (length (arrays (first_visit clock_seconds)))
                             (Filters.mk "all" None) "custom" "")
                          (allocated (sampleTasks (first_visit clock_seconds))
                                     (seeded (first_visit clock_seconds))))))
    as (s' & Hs & Hc & Hf & Hsb & _ & Hq & _).
  { apply reachable_session, (reachable_start clock_seconds).
    apply (start_no_data _ (no_data_first_visit clock_seconds)). }
  exists s'. split; [apply (start_no_data _ (no_data_first_visit clock_seconds))|].
  split; [exact Hs|]. rewrite Hc, Hf, Hsb. repeat split. exact Hq.
Defined.

(** X8: the title of every task of a reachable collection is not empty
    and has no white space at either end: the sample titles are so, and
    [addTask], the only other source of tasks, stores the trimmed title and
    refuses an empty one. *)
Theorem reachable_titles (s : State) :
  reachable s ->
  forall t, In t (collection s) ->
            title t <> "" /\ JsString.trim (title t) = title t.
Proof.
  intros H t Hin. destruct (reachable_invariant s H) as (_ & _ & Ht).
  rewrite List.Forall_forall in Ht. exact (Ht t Hin).
Qed.

Lemma reachable_titles_witness :
  JsString.trim "Buy milk" = "Buy milk".
Proof.
  apply (reachable_titles
           (session [AddTask "  Buy milk  " "" "medium"]
              (mkState (mkTaskManager 0%nat (Filters.mk "all" None) "custom" "")
                       (allocated (sampleTasks (first_visit clock_seconds))
                                  (seeded (first_visit clock_seconds)))))
           (reachable_session _ _
              (reachable_start clock_seconds _
                 (start_no_data _ (no_data_first_visit clock_seconds))))
           (mkTask 5000 "Buy milk" false "medium" "" 6000)).
  right. right. left. reflexivity.
Defined.

(** ** Writes to the store *)

Lemma session_cons o os s : session (o :: os) s = session os (execST (perform o) s).
Proof. reflexivity. Qed.

Lemma perform_calls o s :
  setItemCalls (world (execST (perform o) s))
  = ((if writes o then 1 else 0) + setItemCalls (world s))%nat.
Proof.
  destruct (writes o) eqn:E.
  - now destruct (perform_writes o s E) as (_ & ->).
  - now destruct (perform_reads o s E) as (_ & -> & _).
Qed.

(** X9: every operation that changes the persisted state calls setItem
    exactly once, and no other operation calls it: over a session the
    number of writes is the number of its operations other than
    setSearchQuery, getFilteredTasks and an addTask with a blank title, and
    a session of such operations only leaves the store as it was. *)
Theorem session_writes (os : list op) (s : State) :
  setItemCalls (world (session os s))
  = (length (List.filter writes os) + setItemCalls (world s))%nat
  /\ (List.filter writes os = [] ->
      localStorage (world (session os s)) = localStorage (world s)).
Proof.
  revert s. induction os as [|o os IH]; intros s; [now split|].
  rewrite session_cons. destruct (IH (execST (perform o) s)) as (Hn & Hl).
  rewrite Hn, perform_calls. cbn [List.filter].
  destruct (writes o) eqn:E; cbn [length].
  - split; [lia | discriminate].
  - split; [lia|]. intros H. rewrite (Hl H).
    now destruct (perform_reads o s E) as (-> & _).
Qed.

Lemma session_writes_witness :
  localStorage
    (world (session [SetSearchQuery "milk"; GetFilteredTasks; AddTask " " "" "low"]
                    (example_state [task_A] no_filters "custom" "")))
  = ∅.
Proof.
  exact (proj2 (session_writes
                  [SetSearchQuery "milk"; GetFilteredTasks; AddTask " " "" "low"]
                  (example_state [task_A] no_filters "custom" "")) eq_refl).
Defined.

(** ** removeTask *)

(** X10: removeTask(i) keeps exactly the tasks whose id is not [i], in
    their order: afterwards no task has the id [i] (every task with that
    id is gone, were there several) and a second call changes nothing.  The
    collection is a new array, the array that held it before keeps its
    contents, and the snapshot is written. *)
Theorem removeTask_removes (s : State) (i : Z) :
  let s' := execST (removeTask i) s in
  collection s' = List.filter (fun t => negb (id t =? i)) (collection s)
  /\ (forall t, In t (collection s') <-> In t (collection s) /\ id t <> i)
  /\ ~ In i (ids s')
  /\ collection (execST (removeTask i) s') = collection s'
  /\ tasks (this s') = length (arrays (world s))
  /\ (wf s -> JsArray.contents (world s') (tasks (this s)) = collection s)
  /\ persisted s'.
Proof.
  intros s'. subst s'.
  assert (Hc : forall s0, collection (execST (removeTask i) s0)
                          = List.filter (fun t => negb (id t =? i)) (collection s0)).
  { intros s0. unfold execST. rewrite removeTask_run. cbn [snd].
    apply collection_allocated. }
  assert (Hin : forall t, In t (collection (execST (removeTask i) s))
                          <-> In t (collection s) /\ id t <> i).
  { intros t. rewrite Hc, List.filter_In, negb_true_iff, Z.eqb_neq. tauto. }
  split; [apply Hc|]. split; [exact Hin|]. split.
  { unfold ids. intros H. apply List.in_map_iff in H as (t & Ht & H).
    apply Hin in H. tauto. }
  split.
  { rewrite Hc. apply filter_none_removed. intros t Ht. now apply Hin in Ht. }
  split; [reflexivity|]. split.
  { intros Hwf. unfold execST. rewrite removeTask_run. cbn.
    unfold collection, JsArray.contents. cbn. now rewrite lookup_app_l. }
  unfold execST. rewrite removeTask_run. apply saved_persisted.
Qed.

Lemma removeTask_removes_witness :
  JsArray.contents
    (world (execST (removeTask 10)
                   (example_state [task_A; task_B] no_filters "custom" "")))
    0%nat
  = [task_A; task_B].
Proof.
  apply (removeTask_removes (example_state [task_A; task_B] no_filters "custom" "") 10).
  apply wf_example.
Defined.

(** ** The array that getFilteredTasks returns *)

(** X11: getFilteredTasks returns a new array on every call: it is not
    the array of the collection nor any array that existed, and a second
    call returns yet another one.  So what a caller does to the returned
    array itself, putting its elements in another order (sort, reverse) or
    pushing an element onto it, leaves the collection as it was.  (The
    elements are the task objects of the collection: an assignment to a
    field of one of them is no operation on the array and is not covered.) *)
Theorem getFilteredTasks_fresh (s : State) :
  wf s ->
  let r := evalST getFilteredTasks s in
  let s' := execST getFilteredTasks s in
  (length (arrays (world s)) <= r)%nat
  /\ r <> tasks (this s')
  /\ evalST getFilteredTasks s' <> r
  /\ (forall a, Permutation a (JsArray.contents (world s') r) ->
                JsArray.contents (execST (JsArray.write r a) (world s'))
                                 (tasks (this s'))
                = collection s)
  /\ (forall x, JsArray.contents (execST (JsArray.push r x) (world s'))
                                 (tasks (this s'))
                = collection s).
Proof.
  intros Hwf r s'. subst r s'.
  destruct (getFilteredTasks_view s) as [Ht Hd].
  destruct (getFilteredTasks_view (execST getFilteredTasks s)) as [_ Hd'].
  pose proof (derived_new _ _ _ _ Hd) as Hn.
  pose proof (derived_new _ _ _ _ Hd') as Hn'.
  pose proof (derived_lt _ _ _ _ Hd) as Hlt.
  unfold wf in Hwf. rewrite Ht.
  split; [exact Hn|]. split; [lia|]. split; [lia|].
  assert (Hw : forall a, JsArray.contents
                           (execST (JsArray.write (evalST getFilteredTasks s) a)
                                   (world (execST getFilteredTasks s)))
                           (tasks (this s))
                         = collection s).
  { intros a. unfold JsArray.write, execST, JsArray.contents. cbn.
    rewrite list_lookup_insert_ne by lia.
    now rewrite (derived_frame _ _ _ _ Hd). }
  split; [intros a _; apply Hw|].
  intros x. apply (Hw (JsArray.contents (world (execST getFilteredTasks s))
                                        (evalST getFilteredTasks s) ++ [x])).
Qed.

Lemma getFilteredTasks_fresh_witness :
  evalST getFilteredTasks (example_state [task_A] no_filters "custom" "")
  <> tasks (this (execST getFilteredTasks
                         (example_state [task_A] no_filters "custom" ""))).
Proof.
  apply (getFilteredTasks_fresh (example_state [task_A] no_filters "custom" "")).
  apply wf_example.
Defined.

(** ** More on the derived view *)

Lemma shown_result s :
  shown s = arranged (this s) (List.filter (satisfies (this s)) (collection s)).
Proof. apply getFilteredTasks_result. Qed.

Lemma by_key_byDateCreated a :
  by_key byDateCreated (fun t => - dateCreated t) a.
Proof. intros x y _ _. unfold byDateCreated. f_equal. lia. Qed.

Lemma by_key_byPriority a :
  (forall t, In t a -> known_priority t) ->
  by_key byPriority (fun t => default 0 (order (priority t))) a.
Proof.
  intros Hk x y Hx Hy. unfold byPriority.
  destruct (proj1 (order_known x) (Hk x Hx)) as [rx ->].
  destruct (proj1 (order_known y) (Hk y Hy)) as [ry ->]. reflexivity.
Qed.

Lemma order_injective p q r :
  order p = Some r -> order q = Some r -> p = q.
Proof.
  unfold order.
  destruct (String.eqb_spec p "high"), (String.eqb_spec p "medium"),
    (String.eqb_spec p "low"), (String.eqb_spec q "high"),
    (String.eqb_spec q "medium"), (String.eqb_spec q "low");
    intros [= <-] [=]; congruence.
Qed.

(** X12: the two sorts are stable: under sort mode dateCreated the tasks
    of one creation timestamp, and under sort mode priority (with
    priorities high, medium, low) the tasks of one priority, come in the
    order that the collection has them in. *)
Theorem getFilteredTasks_stable (s : State) :
  let kept := List.filter (satisfies (this s)) (collection s) in
  (sortBy (this s) = "dateCreated" ->
   forall k, List.filter (fun t => dateCreated t =? k) (shown s)
             = List.filter (fun t => dateCreated t =? k) kept)
  /\ (sortBy (this s) = "priority" ->
      (forall t, In t kept -> known_priority t) ->
      forall p, List.filter (fun t => String.eqb (priority t) p) (shown s)
                = List.filter (fun t => String.eqb (priority t) p) kept).
Proof.
  intros kept. rewrite shown_result. fold kept. unfold arranged. split.
  - intros H k. rewrite H. cbn.
    pose proof (sorted_stable byDateCreated (fun t => - dateCreated t) kept (- k)
                  (by_key_byDateCreated kept)) as Hs.
    assert (He : forall l,
               List.filter (fun t => dateCreated t =? k) l
               = List.filter (fun t => - dateCreated t =? - k) l).
    { intros l. apply List.filter_ext. intros t.
      destruct (Z.eqb_spec (dateCreated t) k), (Z.eqb_spec (- dateCreated t) (- k));
        try reflexivity; lia. }
    rewrite !He. exact Hs.
  - intros H Hk p. rewrite H. cbn.
    destruct (order p) as [r|] eqn:Ep.
    + pose proof (sorted_stable byPriority
                    (fun t => default 0 (order (priority t))) kept r
                    (by_key_byPriority kept Hk)) as Hs.
      assert (He : forall l, (forall t, In t l -> known_priority t) ->
                   List.filter (fun t => String.eqb (priority t) p) l
                   = List.filter (fun t => default 0 (order (priority t)) =? r) l).
      { intros l Hl. apply List.filter_ext_in. intros t Ht.
        destruct (proj1 (order_known t) (Hl t Ht)) as [rt Et]. rewrite Et. cbn.
        destruct (String.eqb_spec (priority t) p) as [E|E],
          (Z.eqb_spec rt r) as [E'|E']; try reflexivity.
        - rewrite E in Et. congruence.
        - subst rt. exfalso. apply E. eapply order_injective; eauto. }
      rewrite (He kept Hk), <- Hs. apply He.
      intros t Ht. apply Hk. eapply Permutation_in; [apply sorted_perm | exact Ht].
    + assert (He : forall l, (forall t, In t l -> known_priority t) ->
                   List.filter (fun t => String.eqb (priority t) p) l = []).
      { intros l Hl. induction l as [|t l IH]; [reflexivity|]. cbn.
        destruct (String.eqb_spec (priority t) p) as [E|E].
        - destruct (proj1 (order_known t) (Hl t (or_introl eq_refl))) as [rt Et].
          rewrite E in Et. congruence.
        - apply IH. intros u Hu. apply Hl. now right. }
      rewrite (He kept Hk). apply He.
      intros t Ht. apply Hk. eapply Permutation_in; [apply sorted_perm | exact Ht].
Qed.

Lemma getFilteredTasks_stable_witness :
  List.filter (fun t => dateCreated t =? 7)
    (shown (example_state
              [mkTask 1 "first" false "low" "" 7; task_B;
               mkTask 3 "second" false "low" "" 7]
              no_filters "dateCreated" ""))
  = [mkTask 1 "first" false "low" "" 7; mkTask 3 "second" false "low" "" 7].
Proof.
  exact (proj1 (getFilteredTasks_stable
                  (example_state
                     [mkTask 1 "first" false "low" "" 7; task_B;
                      mkTask 3 "second" false "low" "" 7]
                     no_filters "dateCreated" "")) eq_refl 7).
Defined.

Lemma toLowerCase_empty q : JsString.toLowerCase q = "" <-> q = "".
Proof. destruct q; simpl; split; congruence. Qed.

(** X13: the search does not depend on the case of the query: two
    queries with the same lower-case form (MILK and milk) give the same
    derived view. *)
Theorem search_ignores_query_case (s : State) (query query' : string) :
  JsString.toLowerCase query = JsString.toLowerCase query' ->
  shown (execST (setSearchQuery query) s) = shown (execST (setSearchQuery query') s).
Proof.
  intros H. rewrite !shown_result.
  assert (Ht : JsString.truthy query = JsString.truthy query').
  { destruct query, query'; try reflexivity; discriminate. }
  unfold collection. cbn. f_equal.
  apply List.filter_ext. intros t. unfold satisfies. cbn. now rewrite H, Ht.
Qed.

Lemma search_ignores_query_case_witness :
  shown (execST (setSearchQuery "MILK") mixed)
  = shown (execST (setSearchQuery "milk") mixed).
Proof. apply search_ignores_query_case. reflexivity. Defined.

Lemma filter_split {A} (f fa fc : A -> bool) (c : A -> bool) (l : list A) :
  (forall x, fa x = f x && negb (c x)) ->
  (forall x, fc x = f x && c x) ->
  Permutation (List.filter fa l ++ List.filter fc l) (List.filter f l).
Proof.
  intros Ha Hc. induction l as [|x l IH]; [reflexivity|]. cbn.
  rewrite Ha, Hc. destruct (f x), (c x); cbn; try exact IH.
  - rewrite <- IH. symmetry. apply Permutation_middle.
  - now constructor.
Qed.

Lemma shown_status st s :
  shown (execST (setFilter "status" st) s)
  = arranged (this s)
      (List.filter (satisfies (status_selected st (this s))) (collection s)).
Proof.
  rewrite shown_result. unfold execST. rewrite setFilter_status_run. reflexivity.
Qed.

(** X14: the status views divide the tasks: with the search query and
    the priority filter as they are, every task shown under a status other
    than active and completed (so under all) is shown under exactly one of
    active and completed, as often; and every unknown status shows what
    all shows. *)
Theorem status_views_partition (s : State) :
  let view st := shown (execST (setFilter "status" st) s) in
  Permutation (view "active" ++ view "completed") (view "all")
  /\ (forall t, In t (view "all") <-> In t (view "active") \/ In t (view "completed"))
  /\ (forall t, In t (view "active") -> In t (view "completed") -> False)
  /\ (forall st, st <> "active" -> st <> "completed" -> view st = view "all").
Proof.
  intros view. subst view. cbv beta. rewrite !shown_status.
  assert (Hp : Permutation
                 (arranged (this s)
                    (List.filter (satisfies (status_selected "active" (this s)))
                                 (collection s))
                  ++ arranged (this s)
                       (List.filter (satisfies (status_selected "completed" (this s)))
                                    (collection s)))
                 (arranged (this s)
                    (List.filter (satisfies (status_selected "all" (this s)))
                                 (collection s)))).
  { rewrite !arranged_perm. apply (filter_split _ _ _ completed).
    - intros t. unfold satisfies. cbn.
      destruct (if JsString.truthy _ then _ else true),
        (match priority_set _ with Some _ => _ | None => true end),
        (completed t); reflexivity.
    - intros t. unfold satisfies. cbn.
      destruct (if JsString.truthy _ then _ else true),
        (match priority_set _ with Some _ => _ | None => true end),
        (completed t); reflexivity. }
  split; [exact Hp|]. split; [|split].
  - intros t. rewrite <- List.in_app_iff. split; apply Permutation_in;
      [symmetry|]; exact Hp.
  - intros t Ha Hc.
    eapply Permutation_in in Ha; [|apply arranged_perm].
    eapply Permutation_in in Hc; [|apply arranged_perm].
    apply List.filter_In in Ha as (_ & Ha). apply List.filter_In in Hc as (_ & Hc).
    unfold satisfies in Ha, Hc. cbn in Ha, Hc.
    rewrite !andb_true_iff in Ha, Hc.
    destruct (completed t); cbn in Ha, Hc; intuition discriminate.
  - intros st H1 H2. rewrite shown_status. f_equal. apply List.filter_ext.
    intros t. unfold satisfies. cbn.
    apply String.eqb_neq in H1, H2. now rewrite H1, H2.
Qed.

Lemma status_views_partition_witness :
  shown (execST (setFilter "status" "done") mixed)
  = shown (execST (setFilter "status" "all") mixed).
Proof.
  apply (proj2 (proj2 (proj2 (status_views_partition mixed)))); discriminate.
Defined.

(** ** Ids, again *)

(** X15: toggleTask never changes an id and removeTask never makes two
    ids equal, so that distinct ids stay distinct under both; a successful
    addTask keeps them distinct exactly when the reading of the clock that
    it takes as the id is not yet the id of a task. *)
Theorem distinct_ids_kept (s : State) (i : Z) (ttl due prio : string) :
  wf s ->
  NoDup (ids s) ->
  ids (execST (toggleTask i) s) = ids s
  /\ NoDup (ids (execST (removeTask i) s))
  /\ (JsString.trim ttl <> "" ->
      ids (execST (addTask ttl due prio) s)
      = ids s ++ [clock (world s) (ticks (world s))]
      /\ (NoDup (ids (execST (addTask ttl due prio) s))
          <-> ~ In (clock (world s) (ticks (world s))) (ids s))).
Proof.
  intros Hwf Hnd. split; [now apply toggleTask_ids|].
  split; [now apply removeTask_ids|]. intros Ht. split.
  - unfold ids. destruct (addTask_success s ttl due prio Hwf Ht) as (-> & _).
    now rewrite List.map_app.
  - now apply addTask_ids.
Qed.

Lemma distinct_ids_kept_witness :
  NoDup (ids (execST (addTask "c" "" "low")
                     (example_state [task_A; task_B] no_filters "custom" ""))).
Proof.
  assert (Hnd : NoDup (ids (example_state [task_A; task_B] no_filters "custom" ""))).
  { apply NoDup_cons. split; [|apply NoDup_singleton].
    intros H. apply list_elem_of_singleton in H. discriminate. }
  assert (Ht : JsString.trim "c" <> "") by discriminate.
  apply (proj2 (proj2 (proj2 (distinct_ids_kept
                                (example_state [task_A; task_B] no_filters
                                               "custom" "")
                                0 "c" "" "low" (wf_example _ _ _ _) Hnd)) Ht)).
  intros [H|[H|[]]]; discriminate.
Defined.

(** X16: addTask followed by removeTask of the id it gave removes the new
    task and every older task with that id: what is left is the old
    collection without the tasks of that id, hence the old collection itself
    when the id was new. *)
Theorem addTask_then_removeTask (s : State) (ttl due prio : string) :
  wf s ->
  JsString.trim ttl <> "" ->
  let i := clock (world s) (ticks (world s)) in
  let s' := execST (removeTask i) (execST (addTask ttl due prio) s) in
  collection s' = List.filter (fun t => negb (id t =? i)) (collection s)
  /\ (~ In i (ids s) -> collection s' = collection s).
Proof.
  intros Hwf Ht i s'. subst s'.
  assert (Hc : collection (execST (removeTask i) (execST (addTask ttl due prio) s))
               = List.filter (fun t => negb (id t =? i)) (collection s)).
  { unfold execST at 1. rewrite removeTask_run. cbn [snd].
    rewrite collection_allocated.
    destruct (addTask_success s ttl due prio Hwf Ht) as (-> & _).
    rewrite List.filter_app. cbn. subst i. rewrite Z.eqb_refl. cbn.
    apply app_nil_r. }
  split; [exact Hc|]. intros Hn. rewrite Hc. apply filter_none_removed.
  intros t Hin Hi. apply Hn. unfold ids. apply List.in_map_iff. now exists t.
Qed.

Lemma addTask_then_removeTask_witness :
  collection (execST (removeTask 1700000000000)
                (execST (addTask "c" "" "low")
                   (example_state [task_A; task_B] no_filters "custom" "")))
  = [task_A; task_B].
Proof.
  assert (Ht : JsString.trim "c" <> "") by discriminate.
  apply (proj2 (addTask_then_removeTask
                  (example_state [task_A; task_B] no_filters "custom" "")
                  "c" "" "low" (wf_example _ _ _ _) Ht)).
  intros [H|[H|[]]]; discriminate.
Defined.

(** ** setFilter and setSortBy *)

(** X17: setFilter with a kind other than status and priority changes
    no filter and nothing else of the manager, and still writes the
    snapshot to the store. *)
Theorem setFilter_unknown_kind (s : State) (type value : string) :
  type <> "status" ->
  type <> "priority" ->
  let s' := execST (setFilter type value) s in
  this s' = this s
  /\ collection s' = collection s
  /\ persisted s'
  /\ localStorage (world s') !! Storage.STORAGE_KEY
     = Some (JSON.stringify (snapshot s))
  /\ setItemCalls (world s') = S (setItemCalls (world s)).
Proof.
  intros H1 H2 s'. subst s'. apply String.eqb_neq in H1, H2.
  destruct (setFilter_run type value s) as (o & -> & _ & _ & _ & Ho).
  rewrite (Ho H1 H2). split; [reflexivity|]. split; [reflexivity|].
  split; [apply saved_persisted|]. split; [|reflexivity].
  apply (saved_persisted (this s) (world s)).
Qed.

Lemma setFilter_unknown_kind_witness :
  this (execST (setFilter "due" "today") mixed) = this mixed
  /\ setItemCalls (world (execST (setFilter "due" "today") mixed)) = 1%nat.
Proof.
  assert (H1 : "due" <> "status") by discriminate.
  assert (H2 : "due" <> "priority") by discriminate.
  pose proof (setFilter_unknown_kind mixed "due" "today" H1 H2) as H.
  split; [exact (proj1 H) | exact (proj2 (proj2 (proj2 (proj2 H))))].
Defined.

(** X18: sorting is for display only: setSortBy stores the mode, not an
    order.  After setSortBy and getFilteredTasks, whatever the mode, the
    collection and the stored snapshot still have the tasks in the order of
    the collection; the returned array holds the tasks left by the filters,
    each as often, in some order. *)
Theorem setSortBy_display_only (s : State) (m : string) :
  wf s ->
  let s1 := execST (setSortBy m) s in
  let s2 := execST getFilteredTasks s1 in
  collection s1 = collection s
  /\ collection s2 = collection s
  /\ sortBy (this s2) = m
  /\ localStorage (world s2) !! Storage.STORAGE_KEY
     = Some (JSON.stringify (Snapshot.mk (collection s) (filters (this s)) m))
  /\ Permutation (shown s1)
                 (List.filter (satisfies (this s1)) (collection s)).
Proof.
  intros Hwf s1 s2. subst s1 s2.
  assert (E : execST (setSortBy m) s
              = mkState (mkTaskManager (tasks (this s)) (filters (this s)) m
                                       (searchQuery (this s)))
                        (saved (mkTaskManager (tasks (this s)) (filters (this s)) m
                                              (searchQuery (this s)))
                               (world s))) by reflexivity.
  rewrite E.
  set (s1 := mkState _ _) in *.
  assert (Hwf1 : wf s1) by exact Hwf.
  destruct (getFilteredTasks_frame s1) as (Ht & Hf & Hs & _).
  cbv zeta in Ht, Hf, Hs.
  assert (Hc : collection (execST getFilteredTasks s1) = collection s).
  { unfold collection at 1. rewrite Ht. now rewrite (Hf _ Hwf1). }
  split; [now subst s1|]. split; [exact Hc|]. split; [now rewrite Ht|].
  split; [rewrite Hs; apply (saved_persisted (this s1) (world s))|].
  rewrite shown_result, arranged_perm. now subst s1.
Qed.

Lemma setSortBy_display_only_witness :
  collection (execST getFilteredTasks
                (execST (setSortBy "dateCreated")
                   (example_state [task_A; task_B] no_filters "custom" "")))
  = [task_A; task_B]
  /\ localStorage
       (world (execST getFilteredTasks
                 (execST (setSortBy "dateCreated")
                    (example_state [task_A; task_B] no_filters "custom" ""))))
     !! Storage.STORAGE_KEY
     = Some (JSON.stringify (Snapshot.mk [task_A; task_B] no_filters "dateCreated")).
Proof.
  pose proof (setSortBy_display_only
                (example_state [task_A; task_B] no_filters "custom" "")
                "dateCreated" (wf_example _ _ _ _)) as H.
  split; [exact (proj1 (proj2 H)) | exact (proj1 (proj2 (proj2 (proj2 H))))].
Defined.

(** ** The theme *)

Lemma toggleTheme_run p :
  toggleTheme p
  = (tt, let next := if strict_eq (dataTheme p) "light" then "dark" else "light" in
         mkPage (<[THEME_KEY := next]> (rawItems p)) (Some next)
                (Some (iconFor next))).
Proof. reflexivity. Qed.

Lemma initTheme_run p :
  initTheme p
  = (tt, mkPage (rawItems p) (Some (evalST loadTheme p))
                (Some (iconFor (evalST loadTheme p)))).
Proof. reflexivity. Qed.

(** X19: a saved theme is the theme that [loadTheme] returns, except the
    empty string, for which it returns light, as it does when no theme was
    ever saved; saving touches no other entry and nothing of the document,
    and loading changes nothing. *)
Theorem saveTheme_loadTheme (p : Page) (theme : string) :
  let p1 := execST (saveTheme theme) p in
  evalST loadTheme p1 = (if JsString.truthy theme then theme else "light")
  /\ (rawItems p !! THEME_KEY = None -> evalST loadTheme p = "light")
  /\ (forall k, k <> THEME_KEY -> rawItems p1 !! k = rawItems p !! k)
  /\ dataTheme p1 = dataTheme p
  /\ themeIcon p1 = themeIcon p
  /\ execST loadTheme p1 = p1.
Proof.
  intros p1. subst p1. split.
  { unfold evalST, execST, loadTheme, saveTheme. cbn. now rewrite lookup_insert_eq. }
  split.
  { intros H. unfold evalST, loadTheme. cbn. now rewrite H. }
  split; [intros k Hk; cbn; now rewrite lookup_insert_ne|].
  now repeat split.
Qed.

Lemma saveTheme_loadTheme_witness :
  evalST loadTheme (mkPage ∅ None None) = "light".
Proof.
  exact (proj1 (proj2 (saveTheme_loadTheme (mkPage ∅ None None) "dark")) eq_refl).
Defined.

(** X20: toggleTheme turns light into dark and everything else (dark, a
    missing attribute, any other theme) into light; afterwards the
    attribute, the icon (the moon for light, the sun otherwise) and the
    stored theme agree.  On a page that shows light or dark and whose
    store agrees, two toggles give back the page as it was. *)
Theorem toggleTheme_flips (p : Page) :
  let next := if strict_eq (dataTheme p) "light" then "dark" else "light" in
  themed next (execST toggleTheme p)
  /\ (dataTheme p = Some "light" -> next = "dark")
  /\ (dataTheme p <> Some "light" -> next = "light")
  /\ (forall k, k <> THEME_KEY ->
                rawItems (execST toggleTheme p) !! k = rawItems p !! k)
  /\ (forall t, themed t p -> t = "light" \/ t = "dark" ->
                execST toggleTheme (execST toggleTheme p) = p).
Proof.
  cbv zeta. unfold execST. rewrite !toggleTheme_run. cbn [snd].
  split.
  { unfold themed. cbn. split; [reflexivity|]. split; [|reflexivity].
    apply lookup_insert_eq. }
  split; [now intros ->|]. split.
  { intros H. destruct (strict_eq (dataTheme p) "light") eqn:E; [|reflexivity].
    apply strict_eq_spec in E. contradiction. }
  split; [intros k Hk; cbn; now rewrite lookup_insert_ne|].
  intros t (Hd & Hr & Hi) Ht. destruct p as [raw d i]. cbn in *. subst d i.
  rewrite insert_insert_eq.
  destruct Ht as [-> | ->]; cbn; now rewrite (insert_id _ _ _ Hr).
Qed.

Lemma toggleTheme_flips_witness :
  execST toggleTheme
    (execST toggleTheme
       (mkPage {[THEME_KEY := "dark"]} (Some "dark") (Some Sun)))
  = mkPage {[THEME_KEY := "dark"]} (Some "dark") (Some Sun).
Proof.
  apply (proj2 (proj2 (proj2 (proj2
           (toggleTheme_flips
              (mkPage {[THEME_KEY := "dark"]} (Some "dark") (Some Sun))))))
           "dark").
  - split; [reflexivity|]. split; [apply lookup_singleton_eq | reflexivity].
  - now right.
Defined.

(** X21: the theme survives a reload.  [initTheme] shows the stored
    theme, light when none or the empty string is stored, with the moon
    for light and the sun for every other theme, and writes nothing; so on
    a reloaded document, whatever it showed, [initTheme] shows the theme
    that the last toggle chose. *)
Theorem initTheme_restores (p q : Page) :
  let q1 := execST initTheme q in
  dataTheme q1 = Some (evalST loadTheme q)
  /\ themeIcon q1 = Some (iconFor (evalST loadTheme q))
  /\ rawItems q1 = rawItems q
  /\ (rawItems q !! THEME_KEY = None ->
      dataTheme q1 = Some "light" /\ themeIcon q1 = Some Moon)
  /\ (rawItems q = rawItems (execST toggleTheme p) ->
      dataTheme q1 = dataTheme (execST toggleTheme p)
      /\ themeIcon q1 = themeIcon (execST toggleTheme p)).
Proof.
  cbv zeta.
  assert (Eq : execST initTheme q
               = mkPage (rawItems q) (Some (evalST loadTheme q))
                        (Some (iconFor (evalST loadTheme q)))) by reflexivity.
  rewrite Eq. cbn [dataTheme themeIcon rawItems].
  split; [reflexivity|]. split; [reflexivity|]. split; [reflexivity|]. split.
  { intros H. unfold evalST, loadTheme. cbn. now rewrite H. }
  intros H. unfold execST in *. rewrite toggleTheme_run in *. cbn [snd] in *.
  cbn [dataTheme themeIcon rawItems] in *.
  assert (E : evalST loadTheme q
              = if strict_eq (dataTheme p) "light" then "dark" else "light").
  { unfold evalST, loadTheme. cbn. rewrite H, lookup_insert_eq.
    now destruct (strict_eq (dataTheme p) "light"). }
  now rewrite E.
Qed.

Lemma initTheme_restores_witness :
  dataTheme (execST initTheme (mkPage ∅ (Some "anything") None)) = Some "light"
  /\ themeIcon (execST initTheme (mkPage ∅ (Some "anything") None)) = Some Moon.
Proof.
  exact (proj1 (proj2 (proj2 (proj2
           (initTheme_restores (mkPage ∅ None None)
                               (mkPage ∅ (Some "anything") None)))))
           eq_refl).
Defined.
